(** * Yao garbled-circuit protocol: the two parties of [main.py] and the
      request handler of [server.py]

    Python dictionaries are finite maps ([gmap]), Python integers are [Z]
    (so [^] is [Z.lxor]), byte strings are lists of bytes, and an exception
    is a value of the error monad [res].  Console and socket traffic is an
    explicit trace of events.

    The modules [yao], [ot] and [util] that [main.py] and [server.py] import
    are not part of the sources at hand.  What the two files need from them
    is an interface ([YaoLib]); module [Yao] gives one implementation of it,
    written from the design document. *)

From stdpp Require Import gmap strings list fin_maps relations pretty.
From Stdlib Require Import ZArith Lia.

Local Open Scope Z_scope.

(** ** Exceptions *)

Inductive Exn : Type :=
| KeyError
| IndexError
| TypeError
| EOFError
| ValueError
| AttributeError
| CircuitMalformed
| DecryptionFailure.

Inductive res (A : Type) : Type :=
| Ok (a : A)
| Raise (e : Exn).
Arguments Ok {A} a.
Arguments Raise {A} e.

#[global] Instance res_ret : MRet res := λ A x, Ok x.
#[global] Instance res_bind : MBind res := λ A B f m,
  match m with Ok a => f a | Raise e => Raise e end.
#[global] Instance res_fmap : FMap res := λ A B f m,
  match m with Ok a => Ok (f a) | Raise e => Raise e end.

(** [d[k]] on a dictionary: [KeyError] when the key is absent. *)
Definition getitem `{Countable K} {V} (d : gmap K V) (k : K) : res V :=
  match d !! k with Some v => Ok v | None => Raise KeyError end.

(** [{w: f(w) for w in ws}]: the items are computed from left to right and a
    later duplicate of a key overwrites the earlier binding. *)
Fixpoint dict_comp `{Countable K} {V} (f : K → res V) (ws : list K)
    (acc : gmap K V) : res (gmap K V) :=
  match ws with
  | [] => Ok acc
  | w :: ws' => v ← f w; dict_comp f ws' (<[w:=v]> acc)
  end.

(** [t[i]] on a 2-tuple, with Python's negative indices. *)
Definition tuple2_index {A} (t : A * A) (i : Z) : res A :=
  if decide (i = 0 ∨ i = -2) then Ok t.1
  else if decide (i = 1 ∨ i = -1) then Ok t.2
  else Raise IndexError.

(** A Python integer that is a bit. *)
Definition is_bit (v : Z) : Prop := v = 0 ∨ v = 1.

(** ** Circuits *)

Inductive Op : Type := AND | OR | XOR | NOT.

#[global] Instance Op_eq_dec : EqDecision Op.
Proof. solve_decision. Defined.

(** A gate: operator, ordered input wires, one output wire. *)
Record Gate : Type := mkGate {
  g_op : Op;
  g_in : list Z;
  g_out : Z;
}.

(** The circuit dictionary.  ["alice"] and ["bob"] are optional keys, read
    with [circuit.get(key, [])]. *)
Record Circuit : Type := mkCircuit {
  c_id : string;
  c_alice : option (list Z);
  c_bob : option (list Z);
  c_out : list Z;
  c_gates : list Gate;
}.

Definition get_alice (c : Circuit) : list Z := default [] (c_alice c).
Definition get_bob (c : Circuit) : list Z := default [] (c_bob c).

(** ** What [main.py] imports from [yao] *)

Class YaoLib : Type := {
  Key : Type;
  Tables : Type;
  GarbledCircuitT : Type;
  (** [yao.GarbledCircuit(circuit)], for the randomness drawn in one run *)
  GarbledCircuit : Circuit → res GarbledCircuitT;
  get_pbits : GarbledCircuitT → gmap Z Z;
  get_keys : GarbledCircuitT → gmap Z (Key * Key);
  get_garbled_tables : GarbledCircuitT → Tables;
}.

(** ** [main.py] *)

Module Main.
Section main.
Context `{Y : YaoLib}.
(** Python's [int] on a line of text; [None] is [ValueError]. *)
Variable py_int : string → option Z.

(** A value stored under a key of [self.entry] or of the dictionary sent
    to Bob. *)
Inductive Field : Type :=
| FCircuit (c : Circuit)
| FGarbledCircuit (g : GarbledCircuitT)
| FTables (t : Tables)
| FKeys (k : gmap Z (Key * Key))
| FPbits (p : gmap Z Z).

(** [self.entry] of [YaoGarbler]. *)
Record Entry : Type := mkEntry {
  e_circuit : Circuit;
  e_garbled_circuit : GarbledCircuitT;
  e_garbled_tables : Tables;
  e_keys : gmap Z (Key * Key);
  e_pbits : gmap Z Z;
  e_pbits_out : gmap Z Z;
}.

(** [YaoGarbler.__init__] *)
Definition YaoGarbler_init (circuit : Circuit) : res Entry :=
  garbled_circuit ← GarbledCircuit circuit;
  let pbits := get_pbits garbled_circuit in
  pbits_out ← dict_comp (getitem pbits) (c_out circuit) ∅;
  Ok {| e_circuit := circuit;
        e_garbled_circuit := garbled_circuit;
        e_garbled_tables := get_garbled_tables garbled_circuit;
        e_keys := get_keys garbled_circuit;
        e_pbits := pbits;
        e_pbits_out := pbits_out |}.

(** What the two parties do to the console and to the socket. *)
Inductive Event : Type :=
| Print (s : string)
| Prompt (wire : Z)
| NewGarblerSocket
| NewObliviousTransfer (enabled : bool)
| SendWait (to_send : gmap string Field)
| OTGetResult (a_inputs : gmap Z (Key * Z))
              (b_keys : gmap Z ((Key * Z) * (Key * Z)))
| Polled (entry : gmap string Field)
| Send (ack : bool)
| OTSendResult (circuit : Circuit) (garbled_tables : Tables)
               (pbits_out b_inputs_clear : gmap Z Z).


(** The [while True] loop shared by [get_alice_inputs] and
    [get_bob_inputs]: one line of standard input per iteration, until a
    line is an integer in [[0, 1]].  Returns the value, the unread lines
    and what was written; running out of lines is [EOFError]. *)
Fixpoint read_bit (wire : Z) (stdin : list string)
    : res (Z * list string) * list Event :=
  match stdin with
  | [] => (Raise EOFError, [Prompt wire])
  | line :: rest =>
      match py_int line with
      | Some value =>
          if decide (value = 0 ∨ value = 1) then
            (Ok (value, rest), [Prompt wire])
          else
            let '(r, out) := read_bit wire rest in
            (r, Prompt wire :: Print "Input must be either 0 or 1." :: out)
      | None =>
          let '(r, out) := read_bit wire rest in
          (r, Prompt wire :: Print "Invalid input. Please enter 0 or 1." :: out)
      end
  end.

(** [Alice._get_encr_bits] *)
Definition _get_encr_bits (pbit : Z) (key0 key1 : Key)
    : (Key * Z) * (Key * Z) :=
  ((key0, Z.lxor 0 pbit), (key1, Z.lxor 1 pbit)).

(** Lines 102-103 of [get_alice_inputs]: the binding for one wire. *)
Definition alice_binding (keys : gmap Z (Key * Key)) (pbits : gmap Z Z)
    (wire value : Z) : res (Key * Z) :=
  ks ← getitem keys wire;
  k ← tuple2_index ks value;
  p ← getitem pbits wire;
  Ok (k, Z.lxor p value).

(** The [for wire in a_wires] loop of [get_alice_inputs]. *)
Fixpoint alice_loop (keys : gmap Z (Key * Key)) (pbits : gmap Z Z)
    (a_wires : list Z) (a_inputs : gmap Z (Key * Z)) (stdin : list string)
    : res (gmap Z (Key * Z) * list string) * list Event :=
  match a_wires with
  | [] => (Ok (a_inputs, stdin), [])
  | wire :: ws =>
      match read_bit wire stdin with
      | (Ok (value, stdin'), out) =>
          match alice_binding keys pbits wire value with
          | Ok b =>
              let '(r, out') :=
                alice_loop keys pbits ws (<[wire:=b]> a_inputs) stdin' in
              (r, out ++ out')
          | Raise e => (Raise e, out)
          end
      | (Raise e, out) => (Raise e, out)
      end
  end.

(** [Alice.get_alice_inputs] *)
Definition get_alice_inputs (entry : Entry) (stdin : list string)
    : res (gmap Z (Key * Z) * list string) * list Event :=
  let circuit := e_circuit entry in
  let a_wires := get_alice circuit in
  let '(r, out) := alice_loop (e_keys entry) (e_pbits entry) a_wires ∅ stdin in
  (r, Print ("Enter Alice's inputs for circuit " +:+ c_id circuit +:+ ":") :: out).

(** The [for wire in b_wires] loop of [get_bob_inputs]. *)
Fixpoint bob_loop (b_wires : list Z) (b_inputs_clear : gmap Z Z)
    (stdin : list string) : res (gmap Z Z * list string) * list Event :=
  match b_wires with
  | [] => (Ok (b_inputs_clear, stdin), [])
  | wire :: ws =>
      match read_bit wire stdin with
      | (Ok (value, stdin'), out) =>
          let '(r, out') := bob_loop ws (<[wire:=value]> b_inputs_clear) stdin' in
          (r, out ++ out')
      | (Raise e, out) => (Raise e, out)
      end
  end.

(** [Bob.get_bob_inputs] *)
Definition get_bob_inputs (b_wires : list Z) (stdin : list string)
    : res (gmap Z Z * list string) * list Event :=
  let '(r, out) := bob_loop b_wires ∅ stdin in
  (r, Print "Enter Bob's inputs:" :: out).

(** An [Alice] object after [Alice.__init__]. *)
Record Alice : Type := mkAlice {
  a_entry : Entry;
  a_ot_enabled : bool;
  a_alice_inputs : gmap Z (Key * Z);
}.

(** [Alice.__init__]: the garbling comes first, the socket and the
    [ObliviousTransfer] object are created next (lines 38-39, two events;
    the constructors belong to [util] and [ot] and what they may raise is
    not known here), the inputs are read last. *)
Definition Alice_init (circuit : Circuit) (oblivious_transfer : bool)
    (stdin : list string) : res (Alice * list string) * list Event :=
  match YaoGarbler_init circuit with
  | Raise e => (Raise e, [])
  | Ok entry =>
      let created := [NewGarblerSocket; NewObliviousTransfer oblivious_transfer] in
      match get_alice_inputs entry stdin with
      | (Ok (a_inputs, stdin'), out) =>
          (Ok ({| a_entry := entry;
                  a_ot_enabled := oblivious_transfer;
                  a_alice_inputs := a_inputs |}, stdin'), created ++ out)
      | (Raise e, out) => (Raise e, created ++ out)
      end
  end.

(** The dictionary built at the top of [Alice.start]. *)
Definition to_send (entry : Entry) : gmap string Field :=
  <["pbits_out" := FPbits (e_pbits_out entry)]>
    (<["garbled_tables" := FTables (e_garbled_tables entry)]>
      (<["circuit" := FCircuit (e_circuit entry)]> ∅)).

(** The dictionary comprehension [b_keys] of [Alice.print]: the items of
    [keys] whose wire is in [b_wires]; [pbits[w]] is [KeyError] when a
    selected wire has no permutation bit. *)
Definition b_keys_of (pbits : gmap Z Z) (keys : gmap Z (Key * Key))
    (b_wires : list Z) : res (gmap Z ((Key * Z) * (Key * Z))) :=
  let selected := filter (λ kv, kv.1 ∈ b_wires) keys in
  if decide (dom selected ⊆ dom pbits) then
    Ok (map_imap (λ w ks,
          (λ p, _get_encr_bits p ks.1 ks.2) <$> pbits !! w) selected)
  else Raise KeyError.

(** What the line printed at the end of [Alice.print] shows: Alice's
    wires with the external bits sent for them, and the output wires with
    their results. *)
Inductive Report : Type :=
| mkReport (a_wires bits_a outputs results : list Z).

(** [[f(w) for w in ws]] *)
Fixpoint list_comp {A B} (f : A → res B) (ws : list A) : res (list B) :=
  match ws with
  | [] => Ok []
  | w :: ws' => v ← f w; vs ← list_comp f ws'; Ok (v :: vs)
  end.

(** [str] of an integer, [sep.join] and [str] of a list of integers. *)
Definition str_int (z : Z) : string := pretty z.
Definition join (sep : string) (l : list string) : string :=
  match l with
  | [] => ""
  | x :: xs => foldl (λ acc y, acc +:+ sep +:+ y) x xs
  end.
Definition str_list (l : list Z) : string :=
  "[" +:+ join ", " (str_int <$> l) +:+ "]".

(** The line formatted on lines 73-77. *)
Definition report_line (r : Report) : string :=
  match r with
  | mkReport a_wires bits_a outputs results =>
      "  Alice" +:+ str_list a_wires +:+ " = "
      +:+ join " " (str_int <$> bits_a) +:+ "  "
      +:+ "Outputs" +:+ str_list outputs +:+ " = "
      +:+ join " " (str_int <$> results)
  end.

(** [Alice.print].  [result] is what [self.ot.get_result(a_inputs, b_keys)]
    returns; the call itself is the event [OTGetResult].  The value
    returned here is the content of the line printed last but one. *)
Definition Alice_print (alice : Alice) (result : gmap Z Z)
    : res Report * list Event :=
  let entry := a_entry alice in
  let '(circuit, pbits, keys) := (e_circuit entry, e_pbits entry, e_keys entry) in
  let outputs := c_out circuit in
  let a_wires := get_alice circuit in
  let a_inputs := a_alice_inputs alice in
  let b_wires := get_bob circuit in
  match b_keys_of pbits keys b_wires with
  | Raise e => (Raise e, [])
  | Ok b_keys =>
      let out := [Print ("======== " +:+ c_id circuit +:+ " ========");
                  OTGetResult a_inputs b_keys] in
      match (bits_a ← list_comp (λ w, snd <$> getitem a_inputs w) a_wires;
             results ← list_comp (getitem result) outputs;
             Ok (mkReport a_wires bits_a outputs results)) with
      | Ok report => (Ok report, out ++ [Print (report_line report); Print ""])
      | Raise e => (Raise e, out)
      end
  end.

(** [Alice.start] *)
Definition Alice_start (alice : Alice) (result : gmap Z Z)
    : res Report * list Event :=
  let '(r, out) := Alice_print alice result in
  (r, SendWait (to_send (a_entry alice)) :: out).

(** Lines 215-216 of [main]: [alice = Alice(circuit, ...)] followed by
    [alice.start()]. *)
Definition alice_session (circuit : Circuit) (oblivious_transfer : bool)
    (stdin : list string) (result : gmap Z Z) : res Report * list Event :=
  match Alice_init circuit oblivious_transfer stdin with
  | (Ok (alice, _), out) =>
      let '(r, out') := Alice_start alice result in (r, out ++ out')
  | (Raise e, out) => (Raise e, out)
  end.

(** [entry[key]] with the use the code makes of the value. *)
Definition field_circuit (entry : gmap string Field) : res Circuit :=
  f ← getitem entry "circuit";
  match f with FCircuit c => Ok c | _ => Raise TypeError end.
Definition field_pbits_out (entry : gmap string Field) : res (gmap Z Z) :=
  f ← getitem entry "pbits_out";
  match f with FPbits p => Ok p | _ => Raise TypeError end.
Definition field_garbled_tables (entry : gmap string Field) : res Tables :=
  f ← getitem entry "garbled_tables";
  match f with FTables t => Ok t | _ => Raise TypeError end.

(** [Bob.send_evaluation] *)
Definition send_evaluation (entry : gmap string Field) (stdin : list string)
    : res (list string) * list Event :=
  match (circuit ← field_circuit entry;
         pbits_out ← field_pbits_out entry;
         garbled_tables ← field_garbled_tables entry;
         Ok (circuit, pbits_out, garbled_tables)) with
  | Raise e => (Raise e, [])
  | Ok (circuit, pbits_out, garbled_tables) =>
      let b_wires := get_bob circuit in
      match get_bob_inputs b_wires stdin with
      | (Ok (b_inputs_clear, stdin'), out) =>
          (Ok stdin',
           out ++ [Print ("Received " +:+ c_id circuit);
                   OTSendResult circuit garbled_tables pbits_out b_inputs_clear])
      | (Raise e, out) => (Raise e, out)
      end
  end.


(** The two numbered menus of [main]: a line is read until it is an
    integer between [1] and [n]. *)
Fixpoint read_choice (n : nat) (stdin : list string)
    : res (nat * list string) :=
  match stdin with
  | [] => Raise EOFError
  | line :: rest =>
      match py_int line with
      | Some choice =>
          if decide (choice < 1 ∨ choice > Z.of_nat n)
          then read_choice n rest
          else Ok (Z.to_nat choice, rest)
      | None => read_choice n rest
      end
  end.

(** What [main] ends up running. *)
Inductive Party : Type :=
| NoCircuitFiles
| RunAlice (circuit : Circuit) (oblivious_transfer : bool) (stdin : list string)
| RunBob (oblivious_transfer : bool)
| UnknownParty (party : string).

(** [main] from the directory listing on, up to the party it starts.
    [circuit_files] is what [os.listdir] and [util.parse_json] gave: each
    [.json] file of the [circuits] directory with the circuits parsed from
    it.  The run of the party that is started ([alice_session], [listen])
    is not part of this function. *)
Definition main (circuit_files : list (string * list Circuit))
    (stdin : list string) (party : string) (oblivious_transfer : bool)
    : res Party :=
  if decide (party = "alice") then
    match circuit_files with
    | [] => Ok NoCircuitFiles
    | _ =>
        '(file_choice, stdin1) ← read_choice (length circuit_files) stdin;
        match circuit_files !! (file_choice - 1)%nat with
        | None => Raise IndexError
        | Some (_, circuits) =>
            '(circuit_choice, stdin2) ← read_choice (length circuits) stdin1;
            match circuits !! (circuit_choice - 1)%nat with
            | None => Raise IndexError
            | Some circuit => Ok (RunAlice circuit oblivious_transfer stdin2)
            end
        end
    end
  else if decide (party = "bob") then Ok (RunBob oblivious_transfer)
  else Ok (UnknownParty party).

(** The namespace that [parser.parse_args()] returns. *)
Record Namespace : Type := mkNamespace {
  party : string;
  no_oblivious_transfer : bool;
}.

(** An argument that [argparse] takes for the flag: the option string
    [--no-oblivious-transfer] or an abbreviation of it, that is a prefix
    that the other option strings of the parser ([-h], [--help]) do not
    share.  The prefix [--] alone is not one: it is the separator. *)
Definition is_flag (arg : string) : bool :=
  String.prefix "--n" arg && String.prefix arg "--no-oblivious-transfer".

(** [parse_args] on command lines without the separator [--]: [None] is
    the parser's exit.  It exits on [-h], [--help] and its abbreviations,
    on an option it does not know, on a flag given a value with [=], on a
    positional argument outside the choices, on a second party and on a
    missing one.  What the parser does with [--] differs between versions
    of Python and is not modelled: a command line with [--] gives [None]
    here. *)
Fixpoint parse_args (argv : list string) (acc : option string * bool)
    : option Namespace :=
  match argv with
  | [] => match acc.1 with
          | Some p => Some {| party := p; no_oblivious_transfer := acc.2 |}
          | None => None
          end
  | arg :: rest =>
      if is_flag arg then
        parse_args rest (acc.1, true)
      else if decide (arg = "alice" ∨ arg = "bob") then
        match acc.1 with
        | None => parse_args rest (Some arg, acc.2)
        | Some _ => None
        end
      else None
  end.

(** The [if __name__ == "__main__"] block. *)
Definition dunder_main (circuit_files : list (string * list Circuit))
    (stdin : list string) (argv : list string) : option (res Party) :=
  args ← parse_args argv (None, false);
  Some (main circuit_files stdin (party args) true).

(** The bits that a sequence of typed lines holds: the values of the lines
    that [int] reads as [0] or [1], in order; every other line is one that
    the input loops refuse. *)
Definition typed_bits (stdin : list string) : list Z :=
  omap (λ line, match py_int line with
                | Some value =>
                    if decide (value = 0 ∨ value = 1) then Some value else None
                | None => None
                end) stdin.

(** A value of the dictionaries that the two input readers return, as
    Python has it: an integer, or a (key, external bit) tuple. *)
Inductive InputValue : Type :=
| IntValue (value : Z)
| TupleValue (key : Key) (encr_bit : Z).

(** The dictionary returned by [get_alice_inputs], respectively by
    [get_bob_inputs], as a dictionary of Python values. *)
Definition alice_values (a_inputs : gmap Z (Key * Z)) : gmap Z InputValue :=
  (λ p, TupleValue p.1 p.2) <$> a_inputs.
Definition bob_values (b_inputs_clear : gmap Z Z) : gmap Z InputValue :=
  IntValue <$> b_inputs_clear.

(** A dictionary that is total over exactly the wires [ws] and binds each
    of them to a bit, 0 or 1. *)
Definition binds_bits (ws : list Z) (d : gmap Z InputValue) : Prop :=
  dom d = list_to_set ws
  ∧ ∀ w, w ∈ ws → ∃ v, is_bit v ∧ d !! w = Some (IntValue v).

(** An event on the console: a [print] or the prompt of an [input]. *)
Definition console (ev : Event) : Prop :=
  match ev with Print _ | Prompt _ => True | _ => False end.
End main.
End Main.

(** ** The garbling library behind [import yao] *)

Module Yao.

(** Modelled from the spec: the encryption scheme that §4.1 asks for, one
    that binds a ciphertext to its key, and the serialisation of the
    (output key, output external bit) message.  [yao.py] is missing. *)
Class Cipher : Type := {
  CKey : Type;
  Msg : Type;
  encrypt : CKey → Msg → Msg;
  decrypt : CKey → Msg → option Msg;
  encode : CKey * Z → Msg;
  decode : Msg → option (CKey * Z);
}.

(** Modelled from the spec: decryption inverts encryption under the same
    key, and decoding inverts encoding ([yao.py] is missing). *)
Class CipherLaws `{Cipher} : Prop := {
  decrypt_encrypt : ∀ k m, decrypt k (encrypt k m) = Some m;
  decode_encode : ∀ p, decode (encode p) = Some p;
}.

Section yao.
Context `{C : Cipher}.

(** Modelled from the spec: the randomness of one garbling, a permutation
    bit and a key pair for every wire (§3, WireKeyPair and
    PermutationBit); the generator of [yao.py] is missing. *)
Record Randomness : Type := mkRandomness {
  rnd_pbit : Z → Z;
  rnd_keys : Z → CKey * CKey;
}.

(** Modelled from the spec: number of inputs of a gate, 1 for NOT and 2
    otherwise (§3, Gate); [yao.py] is missing. *)
Definition arity (op : Op) : nat :=
  match op with NOT => 1%nat | _ => 2%nat end.

(** Modelled from the spec: the boolean function of a gate on bits held
    as integers (§3, Gate); [yao.py] is missing. *)
Definition gate_fn (op : Op) (vs : list Z) : option Z :=
  match op, vs with
  | AND, [a; b] => Some (Z.land a b)
  | OR, [a; b] => Some (Z.lor a b)
  | XOR, [a; b] => Some (Z.lxor a b)
  | NOT, [a] => Some (Z.lxor a 1)
  | _, _ => None
  end.

(** Modelled from the spec: every wire of a circuit, the inputs of the two
    parties and the outputs of the gates (§3, Circuit); [yao.py] is
    missing. *)
Definition all_wires (c : Circuit) : list Z :=
  get_alice c ++ get_bob c ++ (g_out <$> c_gates c).

(** Modelled from the spec: the walk that accepts a gate list when, in
    list order, every gate has the inputs its operator needs, reads only
    wires declared before it and writes a wire not yet declared (§3, Gate
    and Circuit: topological order, single assignment); [yao.py] is
    missing. *)
Fixpoint check_gates (declared : list Z) (gates : list Gate) : bool :=
  match gates with
  | [] => true
  | g :: gs =>
      bool_decide (length (g_in g) = arity (g_op g))
      && bool_decide (g_in g ⊆ declared)
      && bool_decide (g_out g ∉ declared)
      && check_gates (g_out g :: declared) gs
  end.

(** Modelled from the spec: the well-formedness that garbling demands of a
    circuit (§3 Circuit invariant, §7 CircuitMalformed); [yao.py] is
    missing. *)
Definition check_circuit (c : Circuit) : bool :=
  bool_decide (NoDup (get_alice c ++ get_bob c))
  && check_gates (get_alice c ++ get_bob c) (c_gates c)
  && bool_decide (c_out c ⊆ all_wires c).

(** Modelled from the spec: wire [w] is computed from wire [u], that is,
    some gate writes [w] and reads [u] (§3, Gate); [yao.py] is missing. *)
Definition feeds (gates : list Gate) (u w : Z) : Prop :=
  ∃ g, g ∈ gates ∧ g_out g = w ∧ u ∈ g_in g.

(** Modelled from the spec: a circuit with a cycle, a wire that is
    computed from itself through one or more gates (§3, §7); [yao.py] is
    missing. *)
Definition has_cycle (c : Circuit) : Prop :=
  ∃ w, tc (feeds (c_gates c)) w w.

(** Modelled from the spec: a circuit with a dangling wire reference, a
    gate that reads a wire which is neither an input of a party nor the
    output of a gate (§3, §7); [yao.py] is missing. *)
Definition has_dangling (c : Circuit) : Prop :=
  ∃ g u, g ∈ c_gates c ∧ u ∈ g_in g ∧ u ∉ all_wires c.

(** Modelled from the spec: the key of a pair that stands for a semantic
    value (§3, WireKeyPair); [yao.py] is missing. *)
Definition select {A} (pair : A * A) (v : Z) : A :=
  if decide (v = 0) then pair.1 else pair.2.

(** Modelled from the spec: what a wire carries when its semantic value
    is [v], the key for [v] and the external bit [v XOR pbit] (§3,
    ExternalBit); [yao.py] is missing. *)
Definition signal (rnd : Randomness) (w v : Z) : CKey * Z :=
  (select (rnd_keys rnd w) v, Z.lxor v (rnd_pbit rnd w)).

(** Modelled from the spec: encryption of a row under the keys of the
    gate's inputs, inner by the first input's key and outer by the
    second's (§4.1); [yao.py] is missing. *)
Definition encrypt_under (ks : list CKey) (m : Msg) : Msg :=
  foldl (λ acc k, encrypt k acc) m ks.

(** Modelled from the spec: the inverse of [encrypt_under], outermost key
    first (§4.3); [yao.py] is missing. *)
Definition decrypt_under (ks : list CKey) (c : Msg) : option Msg :=
  foldr (λ k acc, m ← acc; decrypt k m) (Some c) ks.

(** Modelled from the spec: the row index, the sum of
    [external_bit_i * 2^i] (§4.1); [yao.py] is missing. *)
Definition row_index (es : list Z) : Z :=
  foldr (λ e acc, e + 2 * acc) 0 es.

(** Modelled from the spec: the combinations of [n] external bits in the
    order of their row index (§3, GarbledTableEntry); [yao.py] is
    missing. *)
Fixpoint ext_rows (n : nat) : list (list Z) :=
  match n with
  | O => [[]]
  | S n' => es ← ext_rows n'; [0 :: es; 1 :: es]
  end.

(** Modelled from the spec: the ciphertext placed at the row of external
    bits [es] of gate [g]: the semantic inputs are the external bits
    unmasked, the message is the output key for the gate's value with the
    output external bit (§4.1); [yao.py] is missing. *)
Definition garble_row (rnd : Randomness) (g : Gate) (es : list Z)
    : res Msg :=
  let vs := zip_with Z.lxor es (rnd_pbit rnd <$> g_in g) in
  match gate_fn (g_op g) vs with
  | None => Raise CircuitMalformed
  | Some v =>
      let msg := encode (select (rnd_keys rnd (g_out g)) v,
                         Z.lxor v (rnd_pbit rnd (g_out g))) in
      Ok (encrypt_under (zip_with select (rnd_keys rnd <$> g_in g) vs) msg)
  end.

(** Modelled from the spec: [[f(x) for x in xs]] with exceptions, used for
    the rows of a table; [yao.py] is missing. *)
Fixpoint rows_of {A B} (f : A → res B) (xs : list A) : res (list B) :=
  match xs with
  | [] => Ok []
  | x :: xs' => y ← f x; ys ← rows_of f xs'; Ok (y :: ys)
  end.

(** Modelled from the spec: the garbled table of a gate, 4 rows for a
    2-input gate and 2 for NOT (§3, GarbledTableEntry); [yao.py] is
    missing. *)
Definition garble_gate (rnd : Randomness) (g : Gate) : res (list Msg) :=
  rows_of (garble_row rnd g) (ext_rows (length (g_in g))).

(** Modelled from the spec: the tables of all gates, in gate order, keyed
    by the gate's output wire (§4.1); [yao.py] is missing. *)
Fixpoint garble_gates (rnd : Randomness) (gates : list Gate)
    (tables : gmap Z (list Msg)) : res (gmap Z (list Msg)) :=
  match gates with
  | [] => Ok tables
  | g :: gs =>
      t ← garble_gate rnd g;
      garble_gates rnd gs (<[g_out g := t]> tables)
  end.

(** Modelled from the spec: the result of [garble(circuit)], garbled
    tables, wire key pairs and permutation bits (§4.1); [yao.py] is
    missing. *)
Record Garbled : Type := mkGarbled {
  gc_tables : gmap Z (list Msg);
  gc_keys : gmap Z (CKey * CKey);
  gc_pbits : gmap Z Z;
}.

(** Modelled from the spec: a dictionary with one drawn value per wire;
    [yao.py] is missing. *)
Definition per_wire {V} (f : Z → V) (ws : list Z) : gmap Z V :=
  list_to_map ((λ w, (w, f w)) <$> ws).

(** Modelled from the spec: [garble(circuit)] of §4.1.  A malformed
    circuit fails with [CircuitMalformed] before anything is garbled
    (§4.1 failure modes, §7); [yao.py] is missing. *)
Definition garble (rnd : Randomness) (c : Circuit) : res Garbled :=
  if check_circuit c then
    tables ← garble_gates rnd (c_gates c) ∅;
    Ok {| gc_tables := tables;
          gc_keys := per_wire (rnd_keys rnd) (all_wires c);
          gc_pbits := per_wire (rnd_pbit rnd) (all_wires c) |}
  else Raise CircuitMalformed.

(** Modelled from the spec: one step of the evaluator's walk.  The row is
    addressed by the external bits of the gate's inputs and decrypted
    with their keys; a row that does not yield a (key, external bit) pair
    aborts the run (§4.3); [yao.py] is missing. *)
Definition evaluate_gate (tables : gmap Z (list Msg))
    (wire_inputs : gmap Z (CKey * Z)) (g : Gate) : res (CKey * Z) :=
  pairs ← rows_of (getitem wire_inputs) (g_in g);
  table ← getitem tables (g_out g);
  match table !! Z.to_nat (row_index (snd <$> pairs)) with
  | None => Raise IndexError
  | Some c =>
      match decrypt_under (fst <$> pairs) c ≫= decode with
      | None => Raise DecryptionFailure
      | Some p => Ok p
      end
  end.

(** Modelled from the spec: the walk over the gates in topological order,
    recording each gate's (key, external bit) on its output wire (§4.3);
    [yao.py] is missing. *)
Fixpoint evaluate_gates (tables : gmap Z (list Msg)) (gates : list Gate)
    (wire_inputs : gmap Z (CKey * Z)) : res (gmap Z (CKey * Z)) :=
  match gates with
  | [] => Ok wire_inputs
  | g :: gs =>
      p ← evaluate_gate tables wire_inputs g;
      evaluate_gates tables gs (<[g_out g := p]> wire_inputs)
  end.

(** Modelled from the spec: the decoding of one output wire,
    [value = external_bit XOR pbit_out] (§4.3); [yao.py] is missing. *)
Definition decode_output (wire_inputs : gmap Z (CKey * Z))
    (pbits_out : gmap Z Z) (out : Z) : res Z :=
  p ← getitem wire_inputs out;
  pbit ← getitem pbits_out out;
  Ok (Z.lxor p.2 pbit).

(** Modelled from the spec: [evaluate(circuit, garbled_tables, pbits_out,
    garbler_input_bundle, local_input_bits)] of §4.3, the last two
    arguments being the (key, external bit) pairs that the evaluator
    holds for the wires of the two parties; [yao.py] is missing. *)
Definition evaluate (circuit : Circuit) (g_tables : gmap Z (list Msg))
    (pbits_out : gmap Z Z) (a_inputs b_inputs : gmap Z (CKey * Z))
    : res (gmap Z Z) :=
  wire_inputs ← evaluate_gates g_tables (c_gates circuit) (b_inputs ∪ a_inputs);
  dict_comp (decode_output wire_inputs pbits_out) (c_out circuit) ∅.

(** Modelled from the spec: the plaintext evaluation of the gate list on
    an assignment of the wires (§8, round-trip correctness); [yao.py] is
    missing. *)
Fixpoint plain_gates (gates : list Gate) (env : gmap Z Z)
    : option (gmap Z Z) :=
  match gates with
  | [] => Some env
  | g :: gs =>
      vs ← mapM (λ w, env !! w) (g_in g);
      v ← gate_fn (g_op g) vs;
      plain_gates gs (<[g_out g := v]> env)
  end.

(** Modelled from the spec: the plaintext evaluation of a circuit on the
    bits [A] of the Garbler and [B] of the Evaluator, as the mapping from
    output wires to bits (§8); [yao.py] is missing. *)
Definition plain_eval (c : Circuit) (A B : gmap Z Z) : option (gmap Z Z) :=
  env ← plain_gates (c_gates c) (B ∪ A);
  list_to_map <$> mapM (λ w, (w,.) <$> env !! w) (c_out c).

(** The library as [main.py] imports it, for one draw of the
    randomness. *)
Definition lib (rnd : Randomness) : YaoLib :=
  {| Key := CKey;
     Tables := gmap Z (list Msg);
     GarbledCircuitT := Garbled;
     GarbledCircuit := garble rnd;
     get_pbits := gc_pbits;
     get_keys := gc_keys;
     get_garbled_tables := gc_tables |}.
End yao.
End Yao.

(** ** The transfer behind [import ot] *)

Module OT.
(** Modelled from the spec: what the 1-out-of-2 oblivious transfer
    delivers.  For each wire of the Receiver, the Sender holds a pair and
    the Receiver a choice bit; the Receiver obtains the entry of the pair
    that its bit selects, and only that one (§4.2); [ot.py] is missing. *)
Definition transfer {A} (pairs : gmap Z (A * A)) (choice : gmap Z Z)
    (b_wires : list Z) : res (gmap Z A) :=
  dict_comp (λ w, pair ← getitem pairs w;
                  bit ← getitem choice w;
                  Ok (Yao.select pair bit)) b_wires ∅.

(** Modelled from the spec: the two ways in which input material leaves
    the Garbler (§4.3 preconditions, §5, §9): handed over directly, or as
    the Sender's pair of one instance of the 1-out-of-2 transfer, tagged
    with its wire (§4.2); [ot.py] is missing. *)
Inductive Delivery (A : Type) : Type :=
| Direct (a_inputs : gmap Z A)
| Oblivious (wire : Z) (pair : A * A).
Arguments Direct {A} a_inputs.
Arguments Oblivious {A} wire pair.

(** Modelled from the spec: what [ot.get_result(a_inputs, b_keys)] makes
    of its two arguments when oblivious transfer is enabled.  The
    Garbler's own (key, external bit) pairs are handed over directly, and
    one instance of the transfer is run for every wire of the table of
    pairs (§4.2 per-wire instance, §5 phases, §9); [ot.py] is missing. *)
Definition deliveries {A} (a_inputs : gmap Z A) (b_keys : gmap Z (A * A))
    : list (Delivery A) :=
  Direct a_inputs :: ((λ wp, Oblivious wp.1 wp.2) <$> map_to_list b_keys).
End OT.

(** ** One run of the protocol between the two parties of [main.py] *)

Module Protocol.
Section protocol.
Context `{C : Yao.Cipher}.
Variable rnd : Yao.Randomness.

(** Modelled from the spec: the phases of one run in the order of §5,
    garbling, the Garbler's own (key, external bit) pairs, the transfer
    for the Evaluator's wires, evaluation and decoding.  The steps are
    those of [main.py] ([YaoGarbler.__init__], the binding of
    [get_alice_inputs] for the bits [A], [b_keys] of [Alice.print], the
    dictionary of [Alice.start] read back by [Bob.send_evaluation]);
    [ot.get_result] and [ot.send_result], which join them, are missing
    with [ot.py]. *)
Definition run (c : Circuit) (A B : gmap Z Z) : res (gmap Z Z) :=
  entry ← Main.YaoGarbler_init (Y := Yao.lib rnd) c;
  a_inputs ← dict_comp (λ w, v ← getitem A w;
                 Main.alice_binding (Y := Yao.lib rnd)
                   (Main.e_keys entry) (Main.e_pbits entry) w v)
               (get_alice c) ∅;
  b_keys ← Main.b_keys_of (Y := Yao.lib rnd)
             (Main.e_pbits entry) (Main.e_keys entry) (get_bob c);
  let received := Main.to_send entry in
  circuit ← Main.field_circuit received;
  pbits_out ← Main.field_pbits_out received;
  garbled_tables ← Main.field_garbled_tables received;
  b_inputs ← OT.transfer b_keys B (get_bob circuit);
  Yao.evaluate circuit garbled_tables pbits_out a_inputs b_inputs.
End protocol.
End Protocol.

(** ** [server.py] *)

Module Server.

(** The per-wire record under [circuit["wires"]]. *)
Record WireInfo : Type := mkWireInfo {
  w_pbit : Z;
  w_type : string;
}.

Section server.
(** Wire names as the parsed JSON has them. *)
Context {W : Type} `{Countable W}.
(** [util.parse_bytes], and [int] on a decoded message ([None] is
    [ValueError]); [util.py] is not at hand. *)
Context {Table : Type}.
Variable parse_bytes : list Byte.byte → Table.
Variable int_of_bytes : list Byte.byte → option Z.

(** The circuit dictionary that the handler reads. *)
Record Circuit : Type := mkCircuit {
  wires : gmap W WireInfo;
  out : list W;
}.

(** The receiving side of the connection: what each successive
    [recv] finds to read. *)
Definition Socket : Type := list (list Byte.byte).

(** [self.request.recv(bufsize)]: at most [bufsize] bytes of what is
    there to read, the empty byte string once the peer is gone. *)
Definition recv (bufsize : Z) (s : Socket) : res (list Byte.byte * Socket) :=
  if decide (bufsize < 0) then Raise ValueError
  else match s with
       | [] => Ok ([], [])
       | chunk :: rest =>
           let n := Z.to_nat bufsize in
           if decide (length chunk ≤ n)%nat then Ok (chunk, rest)
           else Ok (take n chunk, drop n chunk :: rest)
       end.

(** [int(self.request.recv(1024).decode())] *)
Definition recv_int (s : Socket) : res (Z * Socket) :=
  '(data, s') ← recv 1024 s;
  match int_of_bytes data with
  | Some n => Ok (n, s')
  | None => Raise ValueError
  end.

(** [YaoRequestHandler.receive_data] *)
Definition receive_data (s : Socket) : res ((Z * list Byte.byte) * Socket) :=
  '(data_length, s1) ← recv_int s;
  '(data, s2) ← recv data_length s1;
  Ok ((data_length, data), s2).

(** The pair stored on line 55: the two halves of [key_data]. *)
Definition key_pair (key_data : list Byte.byte) : list Byte.byte * list Byte.byte :=
  (take (length key_data `div` 2)%nat key_data,
   drop (length key_data `div` 2)%nat key_data).

(** The first loop of [receive_garbled_data], [n] iterations. *)
Fixpoint receive_tables (n : nat) (garbled_tables : gmap Z Table)
    (s : Socket) : res (gmap Z Table * Socket) :=
  match n with
  | O => Ok (garbled_tables, s)
  | S n' =>
      '((table_name, table_data), s') ← receive_data s;
      receive_tables n' (<[table_name := parse_bytes table_data]> garbled_tables) s'
  end.

(** The second loop of [receive_garbled_data], [n] iterations. *)
Fixpoint receive_keys (n : nat) (keys : gmap Z (list Byte.byte * list Byte.byte))
    (s : Socket) : res (gmap Z (list Byte.byte * list Byte.byte) * Socket) :=
  match n with
  | O => Ok (keys, s)
  | S n' =>
      '((wire, key_data), s') ← receive_data s;
      receive_keys n' (<[wire := key_pair key_data]> keys) s'
  end.

(** [YaoRequestHandler.receive_garbled_data] *)
Definition receive_garbled_data (s : Socket)
    : res ((gmap Z Table * gmap Z (list Byte.byte * list Byte.byte)) * Socket) :=
  '(num_tables, s1) ← recv_int s;
  '(garbled_tables, s2) ← receive_tables (Z.to_nat num_tables) ∅ s1;
  '(num_keys, s3) ← recv_int s2;
  '(keys, s4) ← receive_keys (Z.to_nat num_keys) ∅ s3;
  Ok ((garbled_tables, keys), s4).

(** [YaoRequestHandler.receive_inputs]: [receive_data] returns a tuple,
    which has no [decode], so the first iteration raises. *)
Definition receive_inputs (circuit : Circuit) (s : Socket)
    : res (gmap W Z * Socket) :=
  let num_inputs :=
    length (filter (λ w, w_type <$> wires circuit !! w = Some "BOB")
                   (elements (dom (wires circuit)))) in
  match num_inputs with
  | O => Ok (∅, s)
  | S _ => '(_, _) ← receive_data s; Raise AttributeError
  end.

(** Line 37 of [handle]: the permutation bits of the output wires. *)
Definition pbits_out_of (circuit : Circuit) : res (gmap W Z) :=
  dict_comp (λ w, w_pbit <$> getitem (wires circuit) w) (out circuit) ∅.

(** The arguments of the call [yao.evaluate(circuit, garbled_tables,
    pbits_out, None, bob_inputs)] on line 38. *)
Record EvaluateCall : Type := mkEvaluateCall {
  ev_circuit : Circuit;
  ev_garbled_tables : gmap Z Table;
  ev_pbits_out : gmap W Z;
  ev_a_inputs : option (gmap W (list Byte.byte * Z));
  ev_b_inputs : gmap W Z;
}.

(** [YaoRequestHandler.handle] up to the call of [yao.evaluate].
    [parse_circuit] is [util.parse_json(...)["circuit"]] on the decoded
    first message. *)
Definition handle (parse_circuit : list Byte.byte → res Circuit) (s : Socket)
    : res EvaluateCall :=
  '(circuit_data, s1) ← recv (1024 * 1024) s;
  circuit ← parse_circuit circuit_data;
  '((garbled_tables, keys), s2) ← receive_garbled_data s1;
  '(bob_inputs, s3) ← receive_inputs circuit s2;
  pbits_out ← pbits_out_of circuit;
  Ok {| ev_circuit := circuit;
        ev_garbled_tables := garbled_tables;
        ev_pbits_out := pbits_out;
        ev_a_inputs := None;
        ev_b_inputs := bob_inputs |}.
End server.
End Server.

(** ** A small instance to run the definitions on *)

Module Example.

(** A ciphertext records the key it was locked with; a key opens only the
    layers locked with it. *)
Inductive ToyMsg : Type :=
| Plain (key : Z) (external_bit : Z)
| Locked (key : Z) (m : ToyMsg).

#[global] Instance toy : Yao.Cipher :=
  {| Yao.CKey := Z;
     Yao.Msg := ToyMsg;
     Yao.encrypt := Locked;
     Yao.decrypt := λ k c,
       match c with
       | Locked k' m => if decide (k = k') then Some m else None
       | Plain _ _ => None
       end;
     Yao.encode := λ p, Plain p.1 p.2;
     Yao.decode := λ m,
       match m with Plain k e => Some (k, e) | Locked _ _ => None end |}.

(** Permutation bit: the parity of the wire; keys [10 w] and [10 w + 1]. *)
Definition rnd : Yao.Randomness :=
  {| Yao.rnd_pbit := λ w, w `mod` 2;
     Yao.rnd_keys := λ w, (10 * w, 10 * w + 1) |}.

#[global] Instance lib : YaoLib := Yao.lib rnd.

(** Wires 1, 2 of Alice and 3, 4 of Bob; 8 = NOT ((1 AND 3) XOR (2 OR 4)),
    with wire 7 as a second output. *)
Definition circuit : Circuit :=
  {| c_id := "demo";
     c_alice := Some [1; 2];
     c_bob := Some [3; 4];
     c_out := [8; 7];
     c_gates := [mkGate AND [1; 3] 5; mkGate OR [2; 4] 6;
                 mkGate XOR [5; 6] 7; mkGate NOT [7] 8] |}.

(** Gate 5 reads wire 9, which nothing declares. *)
Definition dangling : Circuit :=
  {| c_id := "dangling";
     c_alice := Some [1];
     c_bob := Some [3];
     c_out := [5];
     c_gates := [mkGate AND [1; 9] 5] |}.

(** Gates 5 and 6 feed each other. *)
Definition cyclic : Circuit :=
  {| c_id := "cyclic";
     c_alice := Some [1];
     c_bob := Some [3];
     c_out := [6];
     c_gates := [mkGate AND [1; 6] 5; mkGate OR [5; 3] 6] |}.

(** [int] on a line: the lines made of decimal digits are read as the
    number they write; every other line used below is one that [int]
    refuses. *)
Fixpoint int_of_digits (s : string) (acc : Z) : option Z :=
  match s with
  | EmptyString => Some acc
  | String c s' =>
      let d := Z.of_nat (Ascii.nat_of_ascii c) - 48 in
      if decide (0 ≤ d ≤ 9) then int_of_digits s' (10 * acc + d) else None
  end.
Definition int_of_line (s : string) : option Z :=
  match s with
  | EmptyString => None
  | _ => int_of_digits s 0
  end.

(** What Alice and Bob type: Alice 1 then 0 (after two refused lines),
    Bob 1 then 1. *)
Definition alice_stdin : list string := ["x"; "2"; "1"; "0"].
Definition bob_stdin : list string := ["1"; "7"; "1"].

(** Another session of Alice: 0 then 1, each the opposite of the wire's
    permutation bit. *)
Definition alice_typing : list string := ["x"; "0"; "2"; "1"].

(** The result that comes back for [A] and [B] below. *)
Definition result : gmap Z Z := <[8 := 1]> (<[7 := 0]> ∅).

Definition A : gmap Z Z := <[1 := 1]> (<[2 := 0]> ∅).
Definition B : gmap Z Z := <[3 := 1]> (<[4 := 1]> ∅).

Definition entry : Main.Entry :=
  match Main.YaoGarbler_init circuit with
  | Ok e => e
  | Raise _ => Main.mkEntry circuit (Yao.mkGarbled ∅ ∅ ∅) ∅ ∅ ∅ ∅
  end.

Definition alice_run := Main.get_alice_inputs int_of_line entry alice_stdin.
Definition a_inputs : gmap Z (Z * Z) :=
  match alice_run.1 with Ok (m, _) => m | Raise _ => ∅ end.

Definition bob_run := Main.get_bob_inputs int_of_line [3; 4] bob_stdin.

Definition alice : Main.Alice :=
  {| Main.a_entry := entry;
     Main.a_ot_enabled := true;
     Main.a_alice_inputs := a_inputs |}.

Definition alice_typed_run :=
  Main.get_alice_inputs int_of_line entry alice_typing.
Definition a_inputs_typed : gmap Z (Z * Z) :=
  match alice_typed_run.1 with Ok (m, _) => m | Raise _ => ∅ end.
Definition alice_typed : Main.Alice :=
  {| Main.a_entry := entry;
     Main.a_ot_enabled := true;
     Main.a_alice_inputs := a_inputs_typed |}.

(** The table of pairs that Alice hands to the transfer, and what the
    transfer gives Bob for his bits. *)
Definition b_keys : gmap Z ((Z * Z) * (Z * Z)) :=
  match Main.b_keys_of (Main.e_pbits entry) (Main.e_keys entry) [3; 4] with
  | Ok m => m
  | Raise _ => ∅
  end.
Definition b_inputs : gmap Z (Z * Z) :=
  match OT.transfer b_keys B [3; 4] with Ok m => m | Raise _ => ∅ end.


(** A circuit dictionary as [server.py] reads it. *)
Definition server_circuit : Server.Circuit (W := string) :=
  {| Server.wires :=
       <["a" := Server.mkWireInfo 1 "ALICE"]>
         (<["b" := Server.mkWireInfo 0 "BOB"]>
           (<["o" := Server.mkWireInfo 1 "OUT"]> ∅));
     Server.out := ["o"] |}.

(** A circuit dictionary for [server.py] without a wire of Bob. *)
Definition server_circuit_alone : Server.Circuit (W := string) :=
  {| Server.wires :=
       <["a" := Server.mkWireInfo 1 "ALICE"]>
         (<["o" := Server.mkWireInfo 1 "OUT"]> ∅);
     Server.out := ["o"] |}.

(** A connection on which the circuit message is followed by the
    announcement of no table and no key. *)
Definition handle_socket : Server.Socket :=
  [[Byte.x7b; Byte.x7d]; [Byte.x30]; [Byte.x30]].


(** [int] on a message that is one decimal digit. *)
Definition int_of_digit (data : list Byte.byte) : option Z :=
  match data with
  | [b] => let n := Z.of_nat (Byte.to_nat b) - 48 in
           if decide (0 ≤ n ≤ 9) then Some n else None
  | _ => None
  end.

(** A connection on which one key of six bytes arrives, announced by its
    length. *)
Definition socket : Server.Socket :=
  [[Byte.x36];
   [Byte.x61; Byte.x62; Byte.x63; Byte.x64; Byte.x65; Byte.x66]].
(** A connection that announces no table and one key, and then delivers
    the key of six bytes. *)
Definition garbled_socket : Server.Socket :=
  [Byte.x30] :: [Byte.x31] :: socket.
End Example.

(** * Properties *)

(** ** Dictionaries and comprehensions *)

Section dict_facts.
Context `{Countable K} {V : Type}.
Implicit Types (f : K → res V) (ws : list K) (acc m : gmap K V).

Lemma getitem_Ok (d : gmap K V) k v : getitem d k = Ok v ↔ d !! k = Some v.
Proof. unfold getitem. destruct (d !! k); split; congruence. Qed.

Lemma dict_comp_lookup f ws acc m :
  dict_comp f ws acc = Ok m →
  ∀ w, (w ∈ ws → ∃ v, f w = Ok v ∧ m !! w = Some v)
       ∧ (w ∉ ws → m !! w = acc !! w).
Proof.
  revert acc. induction ws as [|w0 ws IH]; intros acc Hm w; simpl in Hm.
  - injection Hm as <-. split; [by intros ?%elem_of_nil | done].
  - destruct (f w0) as [v0|] eqn:Hf; simpl in Hm; [|done].
    destruct (IH _ Hm w) as [Hin Hout]. split.
    + intros Hw. destruct (decide (w ∈ ws)) as [|Hnot]; [by apply Hin|].
      apply elem_of_cons in Hw as [->|]; [|done].
      exists v0. split; [done|]. by rewrite (Hout Hnot), lookup_insert_eq.
    + intros Hw. apply not_elem_of_cons in Hw as [Hne Hnot].
      by rewrite (Hout Hnot), lookup_insert_ne.
Qed.

Lemma dict_comp_dom f ws acc m :
  dict_comp f ws acc = Ok m → dom m = list_to_set ws ∪ dom acc.
Proof.
  intros Hm. apply set_eq. intros w.
  destruct (dict_comp_lookup _ _ _ _ Hm w) as [Hin Hout].
  rewrite elem_of_union, elem_of_list_to_set, !elem_of_dom.
  destruct (decide (w ∈ ws)) as [Hw|Hw].
  - destruct (Hin Hw) as (v & _ & ->). split; [by left | by eexists].
  - rewrite (Hout Hw). split; [by right | by intros [?|]].
Qed.

Lemma dict_comp_total f ws acc :
  (∀ w, w ∈ ws → ∃ v, f w = Ok v) → ∃ m, dict_comp f ws acc = Ok m.
Proof.
  revert acc. induction ws as [|w0 ws IH]; intros acc Hf; simpl; [by eexists|].
  destruct (Hf w0) as [v ->]; [by left|]. simpl.
  apply IH. intros w Hw. apply Hf. by right.
Qed.
End dict_facts.

(** ** The external bit (lines 81-82 and 102-103 of [main.py]) *)

Section main_facts.
Context `{Y : YaoLib}.
Variable py_int : string → option Z.

Lemma tuple2_index_bit {A} (t : A * A) v :
  v = 0 ∨ v = 1 → tuple2_index t v = Ok (Yao.select t v).
Proof.
  unfold tuple2_index, Yao.select. intros [-> | ->]; repeat case_decide; try done; lia.
Qed.

Lemma alice_binding_eq keys pbits wire value ks pbit :
  keys !! wire = Some ks → pbits !! wire = Some pbit →
  value = 0 ∨ value = 1 →
  Main.alice_binding keys pbits wire value
  = Ok (Yao.select ks value, Z.lxor pbit value).
Proof.
  intros Hk Hp Hv. unfold Main.alice_binding, getitem.
  rewrite Hk, Hp. simpl. by rewrite (tuple2_index_bit _ _ Hv).
Qed.

(** What [read_bit] returns was typed on the first line that is 0 or 1;
    the lines before it were refused, each with a message and a new
    prompt. *)
Lemma read_bit_spec wire stdin value rest out :
  Main.read_bit py_int wire stdin = (Ok (value, rest), out) →
  (value = 0 ∨ value = 1)
  ∧ ∃ refused line,
      stdin = refused ++ line :: rest
      ∧ py_int line = Some value
      ∧ Forall (λ l, py_int l ≠ Some 0 ∧ py_int l ≠ Some 1) refused
      ∧ out = (refused ≫= λ l,
                 [Main.Prompt wire;
                  Main.Print (match py_int l with
                              | Some _ => "Input must be either 0 or 1."
                              | None => "Invalid input. Please enter 0 or 1."
                              end)])
              ++ [Main.Prompt wire].
Proof.
  revert out. induction stdin as [|line stdin IH]; intros out Hr; simpl in Hr; [done|].
  destruct (py_int line) as [v|] eqn:Hline.
  - case_decide as Hv.
    + injection Hr as -> -> <-. split; [done|].
      exists [], line. by repeat split.
    + destruct (Main.read_bit py_int wire stdin) as [r out'] eqn:Hrec.
      injection Hr as -> <-.
      destruct (IH _ eq_refl) as (Hb & refused & l & -> & Hl & Hall & ->).
      split; [done|]. exists (line :: refused), l.
      repeat split; [done| |].
      * constructor; [|done]. rewrite Hline. split; intros [= ->]; lia.
      * simpl. by rewrite Hline.
  - destruct (Main.read_bit py_int wire stdin) as [r out'] eqn:Hrec.
    injection Hr as -> <-.
    destruct (IH _ eq_refl) as (Hb & refused & l & -> & Hl & Hall & ->).
    split; [done|]. exists (line :: refused), l.
    repeat split; [done| |].
    * constructor; [|done]. by rewrite Hline.
    * simpl. by rewrite Hline.
Qed.

Lemma alice_loop_spec keys pbits ws acc stdin m rest out :
  Main.alice_loop py_int keys pbits ws acc stdin = (Ok (m, rest), out) →
  ∀ w, (w ∈ ws → ∃ value b, (value = 0 ∨ value = 1)
                   ∧ Main.alice_binding keys pbits w value = Ok b
                   ∧ m !! w = Some b)
       ∧ (w ∉ ws → m !! w = acc !! w).
Proof.
  revert acc stdin out. induction ws as [|w0 ws IH]; intros acc stdin out Hl w; simpl in Hl.
  - injection Hl as <- <- <-. split; [by intros ?%elem_of_nil | done].
  - destruct (Main.read_bit py_int w0 stdin) as [[[v stdin']|e] out0] eqn:Hrd; [|done].
    destruct (Main.alice_binding keys pbits w0 v) as [b|e] eqn:Hb; [|done].
    destruct (Main.alice_loop py_int keys pbits ws (<[w0:=b]> acc) stdin')
      as [r out1] eqn:Hrec.
    injection Hl as -> <-.
    destruct (IH _ _ _ Hrec w) as [Hin Hout].
    apply read_bit_spec in Hrd as [Hv _]. split.
    + intros Hw. destruct (decide (w ∈ ws)) as [|Hnot]; [by apply Hin|].
      apply elem_of_cons in Hw as [->|]; [|done].
      exists v, b. by rewrite (Hout Hnot), lookup_insert_eq.
    + intros Hw. apply not_elem_of_cons in Hw as [Hne Hnot].
      by rewrite (Hout Hnot), lookup_insert_ne.
Qed.

Lemma bob_loop_spec ws acc stdin m rest out :
  Main.bob_loop py_int ws acc stdin = (Ok (m, rest), out) →
  ∀ w, (w ∈ ws → ∃ value, (value = 0 ∨ value = 1) ∧ m !! w = Some value)
       ∧ (w ∉ ws → m !! w = acc !! w).
Proof.
  revert acc stdin out. induction ws as [|w0 ws IH]; intros acc stdin out Hl w; simpl in Hl.
  - injection Hl as <- <- <-. split; [by intros ?%elem_of_nil | done].
  - destruct (Main.read_bit py_int w0 stdin) as [[[v stdin']|e] out0] eqn:Hrd; [|done].
    destruct (Main.bob_loop py_int ws (<[w0:=v]> acc) stdin') as [r out1] eqn:Hrec.
    injection Hl as -> <-.
    destruct (IH _ _ _ Hrec w) as [Hin Hout].
    apply read_bit_spec in Hrd as [Hv _]. split.
    + intros Hw. destruct (decide (w ∈ ws)) as [|Hnot]; [by apply Hin|].
      apply elem_of_cons in Hw as [->|]; [|done].
      exists v. by rewrite (Hout Hnot), lookup_insert_eq.
    + intros Hw. apply not_elem_of_cons in Hw as [Hne Hnot].
      by rewrite (Hout Hnot), lookup_insert_ne.
Qed.

Lemma get_alice_inputs_spec entry stdin a_inputs rest out :
  Main.get_alice_inputs py_int entry stdin = (Ok (a_inputs, rest), out) →
  dom a_inputs = list_to_set (get_alice (Main.e_circuit entry))
  ∧ ∀ wire, wire ∈ get_alice (Main.e_circuit entry) →
      ∃ value b, (value = 0 ∨ value = 1)
        ∧ Main.alice_binding (Main.e_keys entry) (Main.e_pbits entry) wire value
          = Ok b
        ∧ a_inputs !! wire = Some b.
Proof.
  intros Ha. unfold Main.get_alice_inputs in Ha.
  destruct (Main.alice_loop _ _ _ _ _ _) as [r out'] eqn:Hloop.
  injection Ha as -> <-.
  pose proof (alice_loop_spec _ _ _ _ _ _ _ _ Hloop) as Hspec. split.
  - apply set_eq. intros w. rewrite elem_of_dom, elem_of_list_to_set.
    destruct (Hspec w) as [Hin Hout].
    destruct (decide (w ∈ get_alice (Main.e_circuit entry))) as [Hw|Hw].
    + destruct (Hin Hw) as (v & b & _ & _ & ->). split; [done | by eexists].
    + rewrite (Hout Hw), lookup_empty. split; [by intros [? ?] | done].
  - intros wire Hw. by apply Hspec.
Qed.

Lemma get_bob_inputs_spec b_wires stdin b_inputs rest out :
  Main.get_bob_inputs py_int b_wires stdin = (Ok (b_inputs, rest), out) →
  dom b_inputs = list_to_set b_wires
  ∧ ∀ wire, wire ∈ b_wires →
      ∃ value, (value = 0 ∨ value = 1) ∧ b_inputs !! wire = Some value.
Proof.
  intros Hb. unfold Main.get_bob_inputs in Hb.
  destruct (Main.bob_loop _ _ _ _) as [r out'] eqn:Hloop.
  injection Hb as -> <-.
  pose proof (bob_loop_spec _ _ _ _ _ _ Hloop) as Hspec. split.
  - apply set_eq. intros w. rewrite elem_of_dom, elem_of_list_to_set.
    destruct (Hspec w) as [Hin Hout].
    destruct (decide (w ∈ b_wires)) as [Hw|Hw].
    + destruct (Hin Hw) as (v & _ & ->). split; [done | by eexists].
    + rewrite (Hout Hw), lookup_empty. split; [by intros [? ?] | done].
  - intros wire Hw. by apply Hspec.
Qed.
End main_facts.

Section external_bit.
Context `{Y : YaoLib}.
Variable py_int : string → option Z.

Lemma alice_binding_inv keys pbits wire value b :
  Main.alice_binding keys pbits wire value = Ok b →
  value = 0 ∨ value = 1 →
  ∃ key0 key1 pbit,
    keys !! wire = Some (key0, key1) ∧ pbits !! wire = Some pbit
    ∧ b = (if decide (value = 0) then key0 else key1, Z.lxor pbit value).
Proof.
  unfold Main.alice_binding, getitem. intros Hb Hv.
  destruct (keys !! wire) as [[key0 key1]|]; [|done].
  cbn [mbind res_bind] in Hb. rewrite (tuple2_index_bit _ _ Hv) in Hb.
  destruct (pbits !! wire) as [pbit|]; [|done].
  exists key0, key1, pbit. injection Hb as <-. done.
Qed.

End external_bit.

(** ** Reading the inputs ([get_alice_inputs], [get_bob_inputs]) *)

Section inputs.
Context `{Y : YaoLib}.
Variable py_int : string → option Z.

(** The loop stops on the first line that is 0 or 1, whatever was refused
    before it. *)
Lemma read_bit_complete wire refused line value rest :
  Forall (λ l, py_int l ≠ Some 0 ∧ py_int l ≠ Some 1) refused →
  py_int line = Some value → value = 0 ∨ value = 1 →
  ∃ out, Main.read_bit py_int wire (refused ++ line :: rest)
         = (Ok (value, rest), out).
Proof.
  intros Hall Hline Hv. induction Hall as [|l refused [H0 H1] _ [out IH]]; simpl.
  - rewrite Hline. rewrite decide_True by done. by eexists.
  - rewrite IH. destruct (py_int l) as [v|]; [|by eexists].
    rewrite decide_False; [by eexists|]. intros [-> | ->]; congruence.
Qed.

End inputs.

(** ** The key pairs rebuilt by the server (line 55 of [server.py]) *)

Section server_keys.
Variable int_of_bytes : list Byte.byte → option Z.

(** C10.  For a key payload [key_data] of [n] bytes that [receive_data]
    hands to the loop of [receive_garbled_data], the pair stored is
    ([key_data[0 : n div 2]], [key_data[n div 2 : n]]): its two components
    concatenate back to the payload and the first has [n div 2] bytes. *)
Theorem key_pair_splits_payload (keys : gmap Z (list Byte.byte * list Byte.byte))
    (s s' : Server.Socket) wire key_data :
  Server.receive_data int_of_bytes s = Ok ((wire, key_data), s') →
  let n := length key_data in
  Server.receive_keys int_of_bytes 1 keys s
  = Ok (<[wire := (take (n `div` 2)%nat key_data,
                   drop (n `div` 2)%nat key_data)]> keys, s')
  ∧ (Server.key_pair key_data).1 ++ (Server.key_pair key_data).2 = key_data
  ∧ length (Server.key_pair key_data).1 = (n `div` 2)%nat.
Proof.
  intros Hrecv n. split; [|split].
  - simpl. rewrite Hrecv. reflexivity.
  - apply take_drop.
  - unfold Server.key_pair. cbn [fst]. rewrite length_take. fold n.
    apply Nat.min_l, Nat.Div0.div_le_upper_bound. lia.
Qed.
End server_keys.

Lemma key_pair_splits_payload_witness :
  Server.receive_data Example.int_of_digit Example.socket
  = Ok ((6, [Byte.x61; Byte.x62; Byte.x63; Byte.x64; Byte.x65; Byte.x66]), [])
  ∧ Server.receive_keys Example.int_of_digit 1 ∅ Example.socket
    = Ok (<[6 := ([Byte.x61; Byte.x62; Byte.x63],
                  [Byte.x64; Byte.x65; Byte.x66])]> ∅, []).
Proof.
  assert (Hrecv : Server.receive_data Example.int_of_digit Example.socket
    = Ok ((6, [Byte.x61; Byte.x62; Byte.x63; Byte.x64; Byte.x65; Byte.x66]), []))
    by reflexivity.
  split; [exact Hrecv|].
  exact (proj1 (key_pair_splits_payload Example.int_of_digit ∅ _ _ _ _ Hrecv)).
Defined.

(** ** The command line ([__main__] of [main.py]) *)

Section command_line.
Context `{Y : YaoLib}.
Variable py_int : string → option Z.

(** C2, as the code has it.  Whatever the command line, the party is
    started with oblivious transfer enabled: the flag
    [--no-oblivious-transfer] is parsed and then not used, [main] being
    called with [oblivious_transfer=True]. *)
Theorem no_oblivious_transfer_flag_is_ignored circuit_files stdin :
  Main.parse_args ["bob"; "--no-oblivious-transfer"] (None, false)
  = Some (Main.mkNamespace "bob" true)
  ∧ Main.dunder_main py_int circuit_files stdin
      ["bob"; "--no-oblivious-transfer"]
    = Some (Ok (Main.RunBob true))
  ∧ Main.dunder_main py_int circuit_files stdin ["bob"]
    = Some (Ok (Main.RunBob true))
  ∧ ∀ argv circuit ot rest,
      Main.dunder_main py_int circuit_files stdin argv
      = Some (Ok (Main.RunAlice circuit ot rest))
      ∨ Main.dunder_main py_int circuit_files stdin argv
        = Some (Ok (Main.RunBob ot)) →
      ot = true.
Proof.
  split; [done|]. split; [done|]. split; [done|].
  intros argv circuit ot rest. unfold Main.dunder_main, Main.main.
  destruct (Main.parse_args argv (None, false)) as [args|]; simpl; [|by intros [|]].
  repeat case_decide.
  - destruct circuit_files as [|f fs]; [by intros [|]|].
    destruct (Main.read_choice _ _ _) as [[c1 s1]|]; simpl; [|by intros [|]].
    destruct (_ !! _) as [[? cs]|]; [|by intros [|]].
    destruct (Main.read_choice _ _ _) as [[c2 s2]|]; simpl; [|by intros [|]].
    destruct (_ !! _); intros [|]; congruence.
  - intros [|]; congruence.
  - by intros [|].
Qed.
End command_line.

(** ** What Alice sends ([Alice.start], [Alice.print]) *)

Section alice_sends.
Context `{Y : YaoLib}.
Variable py_int : string → option Z.

Lemma YaoGarbler_init_inv circuit entry :
  Main.YaoGarbler_init circuit = Ok entry →
  ∃ g, GarbledCircuit circuit = Ok g
       ∧ Main.e_circuit entry = circuit
       ∧ Main.e_garbled_circuit entry = g
       ∧ Main.e_garbled_tables entry = get_garbled_tables g
       ∧ Main.e_keys entry = get_keys g
       ∧ Main.e_pbits entry = get_pbits g
       ∧ dict_comp (getitem (get_pbits g)) (c_out circuit) ∅
         = Ok (Main.e_pbits_out entry).
Proof.
  unfold Main.YaoGarbler_init. intros Hinit.
  destruct (GarbledCircuit circuit) as [g|]; [|done]. cbn [mbind res_bind] in Hinit.
  destruct (dict_comp _ _ _) as [po|] eqn:Hpo; [|done].
  injection Hinit as <-. by exists g.
Qed.

Lemma to_send_lookup entry name :
  Main.to_send entry !! name
  = if decide (name = "pbits_out") then Some (Main.FPbits (Main.e_pbits_out entry))
    else if decide (name = "garbled_tables")
         then Some (Main.FTables (Main.e_garbled_tables entry))
    else if decide (name = "circuit") then Some (Main.FCircuit (Main.e_circuit entry))
    else None.
Proof.
  unfold Main.to_send. repeat case_decide; subst; by simplify_map_eq.
Qed.

Lemma fields_of_to_send entry :
  Main.field_circuit (Main.to_send entry) = Ok (Main.e_circuit entry)
  ∧ Main.field_pbits_out (Main.to_send entry) = Ok (Main.e_pbits_out entry)
  ∧ Main.field_garbled_tables (Main.to_send entry)
    = Ok (Main.e_garbled_tables entry).
Proof.
  unfold Main.field_circuit, Main.field_pbits_out, Main.field_garbled_tables,
    getitem.
  rewrite !to_send_lookup. by repeat case_decide.
Qed.

Lemma Alice_print_out alice result r out :
  Main.Alice_print alice result = (r, out) →
  ∀ m, Main.SendWait m ∉ out.
Proof.
  unfold Main.Alice_print. destruct (Main.b_keys_of _ _ _) as [b_keys|e].
  - destruct (_ ≫= _) as [report|e]; intros [= <- <-] m Hm;
      repeat (apply elem_of_cons in Hm as [?|Hm]; [done|]);
      by apply elem_of_nil in Hm.
  - intros [= <- <-] m Hm. by apply elem_of_nil in Hm.
Qed.

(** C4.  The dictionary that [Alice.start] sends, once, has exactly the
    keys ["circuit"], ["garbled_tables"] and ["pbits_out"]: the circuit,
    the garbled tables and the permutation bits of the output wires.  No
    field of it holds the wire keys or the garbled circuit object, and
    [pbits_out] binds a wire only if it is an output wire. *)
Theorem bundle_is_circuit_tables_pbits_out circuit entry alice result r out :
  Main.YaoGarbler_init circuit = Ok entry →
  Main.a_entry alice = entry →
  Main.Alice_start alice result = (r, out) →
  (∃ out', out = Main.SendWait (Main.to_send entry) :: out'
           ∧ ∀ m, Main.SendWait m ∉ out')
  ∧ dom (Main.to_send entry)
    = {["circuit"]} ∪ {["garbled_tables"]} ∪ {["pbits_out"]}
  ∧ Main.to_send entry !! "circuit" = Some (Main.FCircuit circuit)
  ∧ Main.to_send entry !! "garbled_tables"
    = Some (Main.FTables (Main.e_garbled_tables entry))
  ∧ Main.to_send entry !! "pbits_out"
    = Some (Main.FPbits (Main.e_pbits_out entry))
  ∧ (∀ name, (∀ keys, Main.to_send entry !! name ≠ Some (Main.FKeys keys))
             ∧ (∀ g, Main.to_send entry !! name ≠ Some (Main.FGarbledCircuit g))
             ∧ (∀ p, Main.to_send entry !! name = Some (Main.FPbits p) →
                     p = Main.e_pbits_out entry))
  ∧ dom (Main.e_pbits_out entry) = list_to_set (c_out circuit)
  ∧ (∀ w, w ∈ c_out circuit →
          Main.e_pbits_out entry !! w = Main.e_pbits entry !! w)
  ∧ (∀ w, w ∉ c_out circuit → Main.e_pbits_out entry !! w = None).
Proof.
  intros Hinit Hentry Hstart.
  destruct (YaoGarbler_init_inv _ _ Hinit) as (g & _ & Hc & _ & _ & _ & Hp & Hpo).
  split; [|split; [|split; [|split; [|split; [|split; [|split; [|split]]]]]]].
  - unfold Main.Alice_start in Hstart.
    destruct (Main.Alice_print alice result) as [r' out'] eqn:Hprint.
    injection Hstart as -> <-. exists out'. rewrite Hentry. split; [done|].
    by eapply Alice_print_out.
  - unfold Main.to_send. rewrite !dom_insert_L, dom_empty_L. set_solver.
  - rewrite to_send_lookup, <- Hc. by repeat case_decide.
  - rewrite to_send_lookup. by repeat case_decide.
  - rewrite to_send_lookup. by repeat case_decide.
  - intros name. rewrite to_send_lookup.
    repeat case_decide; repeat split; intros; congruence.
  - by rewrite (dict_comp_dom _ _ _ _ Hpo), dom_empty_L, union_empty_r_L.
  - intros w Hw. destruct (dict_comp_lookup _ _ _ _ Hpo w) as [Hin _].
    destruct (Hin Hw) as (v & Hv%getitem_Ok & ->). by rewrite Hp, Hv.
  - intros w Hw. destruct (dict_comp_lookup _ _ _ _ Hpo w) as [_ Hout].
    by rewrite (Hout Hw).
Qed.

Lemma b_keys_of_lookup pbits keys b_wires b_keys w :
  Main.b_keys_of pbits keys b_wires = Ok b_keys →
  b_keys !! w
  = if decide (w ∈ b_wires) then
      ks ← keys !! w; p ← pbits !! w; Some (Main._get_encr_bits p ks.1 ks.2)
    else None.
Proof.
  unfold Main.b_keys_of. case_decide as Hsub; [|done]. intros [= <-].
  rewrite map_lookup_imap, map_lookup_filter.
  destruct (keys !! w) as [ks|] eqn:Hk; simpl; [|by case_decide].
  case_guard as Hin; simpl; [by destruct (pbits !! w) | done].
Qed.

Lemma b_keys_of_total pbits keys b_wires :
  (∀ w, w ∈ b_wires → is_Some (pbits !! w)) →
  ∃ b_keys, Main.b_keys_of pbits keys b_wires = Ok b_keys.
Proof.
  intros Hp. unfold Main.b_keys_of. rewrite decide_True; [by eexists|].
  intros w [ks Hw]%elem_of_dom.
  apply map_lookup_filter_Some in Hw as [_ Hin]. apply elem_of_dom. by apply Hp.
Qed.

End alice_sends.

(** ** Bob's loop ([Bob.listen]) *)

Section bob_listens.
Context `{Y : YaoLib}.
Variable py_int : string → option Z.





End bob_listens.

(** ** Malformed circuits *)

Section malformed.
Context `{C : Yao.Cipher}.

Lemma check_gates_fresh declared gates g :
  Yao.check_gates declared gates = true → g ∈ gates → g_out g ∉ declared.
Proof.
  revert declared. induction gates as [|g0 gs IH]; intros declared Hc Hg.
  - by apply elem_of_nil in Hg.
  - simpl in Hc. rewrite !andb_true_iff, !bool_decide_eq_true in Hc.
    destruct Hc as [[[_ _] Hfresh] Hrest].
    apply elem_of_cons in Hg as [->|Hg]; [done|].
    intros Hin. apply (IH _ Hrest Hg). by right.
Qed.

Lemma check_gates_reads declared gates g u :
  Yao.check_gates declared gates = true → g ∈ gates → u ∈ g_in g →
  u ∈ declared ∨ u ∈ g_out <$> gates.
Proof.
  revert declared. induction gates as [|g0 gs IH]; intros declared Hc Hg Hu.
  - by apply elem_of_nil in Hg.
  - simpl in Hc. rewrite !andb_true_iff, !bool_decide_eq_true in Hc.
    destruct Hc as [[[_ Hsub] _] Hrest].
    apply elem_of_cons in Hg as [->|Hg]; [left; by apply Hsub|].
    destruct (IH _ Hrest Hg Hu) as [Hd|Ho].
    + apply elem_of_cons in Hd as [->|Hd]; [right; by left | by left].
    + right. rewrite fmap_cons. by right.
Qed.

(** A path through the union of two relations either stays in the second
    or uses an edge of the first whose source is the start of the path or
    has a predecessor. *)
Lemma tc_split {T} (R R1 R2 : relation T) x y :
  (∀ a b, R a b → R1 a b ∨ R2 a b) →
  tc R x y →
  tc R2 x y ∨ ∃ a b, R1 a b ∧ (a = x ∨ ∃ c, R c a).
Proof.
  intros Hsplit Hpath. induction Hpath as [x y Hxy | x z y Hxz _ IH].
  - destruct (Hsplit _ _ Hxy) as [H1|H2].
    + right. exists x, y. split; [done | by left].
    + left. by apply tc_once.
  - destruct IH as [Hzy | (a & b & Hab & Ha)].
    + destruct (Hsplit _ _ Hxz) as [H1|H2].
      * right. exists x, z. split; [done | by left].
      * left. by eapply tc_l.
    + right. exists a, b. split; [done|]. right.
      destruct Ha as [->|Hc]; [by exists x | done].
Qed.

Lemma tc_last {T} (R : relation T) x y : tc R x y → ∃ c, R c y.
Proof. induction 1 as [x y Hxy | x z y _ _ IH]; [by exists x | done]. Qed.

Lemma check_gates_acyclic declared gates w :
  Yao.check_gates declared gates = true → ¬ tc (Yao.feeds gates) w w.
Proof.
  revert declared. induction gates as [|g gs IH]; intros declared Hc Hcycle.
  - apply tc_last in Hcycle as (c & g & Hg & _). by apply elem_of_nil in Hg.
  - pose proof Hc as Hc'. simpl in Hc'.
    rewrite !andb_true_iff, !bool_decide_eq_true in Hc'.
    destruct Hc' as [[[_ Hsub] _] Hrest].
    destruct (tc_split (Yao.feeds (g :: gs)) (Yao.feeds [g]) (Yao.feeds gs) w w)
      as [Hin | (a & b & (g1 & Hg1 & _ & Ha) & Hpred)]; [|done| |].
    + intros a b (g1 & Hg1 & Hout & Hin).
      apply elem_of_cons in Hg1 as [->|Hg1].
      * left. exists g. split; [by left | done].
      * right. by exists g1.
    + by apply (IH _ Hrest).
    + apply list_elem_of_singleton in Hg1 as ->.
      assert (∃ c, Yao.feeds (g :: gs) c a) as (c & g2 & Hg2 & Hout & _).
      { destruct Hpred as [->|Hp]; [by eapply tc_last | done]. }
      apply (check_gates_fresh _ _ _ Hc Hg2). rewrite Hout. by apply Hsub.
Qed.

Lemma check_circuit_sound c :
  Yao.check_circuit c = true → ¬ Yao.has_cycle c ∧ ¬ Yao.has_dangling c.
Proof.
  unfold Yao.check_circuit. rewrite !andb_true_iff. intros [[_ Hc] _]. split.
  - intros [w Hw]. by eapply check_gates_acyclic.
  - intros (g & u & Hg & Hu & Hnot). apply Hnot. unfold Yao.all_wires.
    destruct (check_gates_reads _ _ _ _ Hc Hg Hu) as [Hd|Ho].
    + rewrite app_assoc. apply elem_of_app. by left.
    + rewrite app_assoc. apply elem_of_app. by right.
Qed.

(** C7.  Garbling a circuit that has a cycle or a dangling wire reference
    fails with [CircuitMalformed] and yields no tables; the exception
    leaves [YaoGarbler.__init__] and [Alice.__init__], so that the run of
    Alice ends with it before anything is printed or sent. *)
Theorem malformed_circuit_is_rejected (rnd : Yao.Randomness)
    (py_int : string → option Z) c ot stdin result :
  Yao.has_cycle c ∨ Yao.has_dangling c →
  Yao.garble rnd c = Raise CircuitMalformed
  ∧ Main.YaoGarbler_init (Y := Yao.lib rnd) c = Raise CircuitMalformed
  ∧ Main.alice_session (Y := Yao.lib rnd) py_int c ot stdin result
    = (Raise CircuitMalformed, []).
Proof.
  intros Hbad.
  assert (Hg : Yao.garble rnd c = Raise CircuitMalformed).
  { unfold Yao.garble. destruct (Yao.check_circuit c) eqn:Hc; [|done].
    apply check_circuit_sound in Hc as [Hcyc Hdang]. by destruct Hbad. }
  assert (Hi : Main.YaoGarbler_init (Y := Yao.lib rnd) c = Raise CircuitMalformed).
  { unfold Main.YaoGarbler_init. cbn [GarbledCircuit Yao.lib]. by rewrite Hg. }
  split; [done|]. split; [done|].
  unfold Main.alice_session, Main.Alice_init. by rewrite Hi.
Qed.
End malformed.

Lemma malformed_circuit_is_rejected_witness :
  Yao.has_dangling Example.dangling
  ∧ Yao.has_cycle Example.cyclic
  ∧ Yao.garble Example.rnd Example.dangling = Raise CircuitMalformed
  ∧ Main.alice_session Example.int_of_line Example.cyclic true
      Example.alice_stdin ∅
    = (Raise CircuitMalformed, []).
Proof.
  assert (Hd : Yao.has_dangling Example.dangling).
  { exists (mkGate AND [1; 9] 5), 9. split; [by left|]. split; [by right; left|].
    change (9 ∉ [1; 3; 5]). intros Hin.
    repeat (apply elem_of_cons in Hin as [?|Hin]; [done|]).
    by apply elem_of_nil in Hin. }
  assert (Hc : Yao.has_cycle Example.cyclic).
  { exists 5. apply tc_l with 6.
    - exists (mkGate OR [5; 3] 6). split; [by right; left|]. split; [done | by left].
    - apply tc_once. exists (mkGate AND [1; 6] 5).
      split; [by left|]. split; [done | by right; left]. }
  split; [exact Hd|]. split; [exact Hc|]. split.
  - exact (proj1 (malformed_circuit_is_rejected Example.rnd Example.int_of_line
                    Example.dangling true [] ∅ (or_intror Hd))).
  - exact (proj2 (proj2 (malformed_circuit_is_rejected Example.rnd
                    Example.int_of_line Example.cyclic true Example.alice_stdin ∅
                    (or_introl Hc)))).
Defined.

(** ** Garbling followed by evaluation *)

Section evaluation.
Context `{L : Yao.CipherLaws}.
Variable rnd : Yao.Randomness.
Hypothesis pbits_are_bits : ∀ w, is_bit (Yao.rnd_pbit rnd w).

Lemma lxor_cancel v p : Z.lxor (Z.lxor v p) p = v.
Proof. by rewrite Z.lxor_assoc, Z.lxor_nilpotent, Z.lxor_0_r. Qed.

Lemma is_bit_lxor a b : is_bit a → is_bit b → is_bit (Z.lxor a b).
Proof. intros [-> | ->] [-> | ->]; (by left) || (by right). Qed.

Lemma gate_fn_bit op vs v :
  Forall is_bit vs → Yao.gate_fn op vs = Some v → is_bit v.
Proof.
  intros Hvs Hv.
  destruct op, vs as [|a [|b [|]]]; simpl in Hv; try done; injection Hv as <-;
    repeat match goal with
           | H : Forall _ (_ :: _) |- _ => apply Forall_cons in H as [? H]
           end;
    repeat match goal with H : is_bit _ |- _ => destruct H as [-> | ->] end;
    (by left) || (by right).
Qed.

Lemma gate_fn_arity op vs :
  length vs = Yao.arity op → is_Some (Yao.gate_fn op vs).
Proof. destruct op, vs as [|a [|b [|]]]; simpl; intros; by try done. Qed.

Lemma per_wire_lookup {V} (f : Z → V) ws w :
  Yao.per_wire f ws !! w = if decide (w ∈ ws) then Some (f w) else None.
Proof.
  unfold Yao.per_wire. induction ws as [|w0 ws IH].
  - simpl. apply lookup_empty.
  - rewrite fmap_cons, list_to_map_cons. cbn [fst snd].
    destruct (decide (w = w0)) as [->|Hne].
    + rewrite lookup_insert_eq. by rewrite decide_True by left.
    + rewrite lookup_insert_ne by done. rewrite IH. clear IH.
      destruct (decide (w ∈ ws)) as [Hw|Hw].
      * by rewrite decide_True by (by right).
      * rewrite decide_False; [done|]. by intros [?|?]%elem_of_cons.
Qed.

Lemma ext_rows_lookup es :
  Forall is_bit es → (length es ≤ 2)%nat →
  Yao.ext_rows (length es) !! Z.to_nat (Yao.row_index es) = Some es.
Proof.
  intros Hes Hlen. destruct es as [|e0 [|e1 [|]]]; simpl in Hlen; try lia;
    repeat match goal with
           | H : Forall _ (_ :: _) |- _ => apply Forall_cons in H as [? H]
           end;
    repeat match goal with H : is_bit _ |- _ => destruct H as [-> | ->] end;
    reflexivity.
Qed.

Lemma rows_of_lookup {A B} (f : A → res B) xs ys i x :
  Yao.rows_of f xs = Ok ys → xs !! i = Some x →
  ∃ y, ys !! i = Some y ∧ f x = Ok y.
Proof.
  revert ys i. induction xs as [|x0 xs IH]; intros ys i Hr Hi; [done|].
  simpl in Hr. destruct (f x0) as [y0|] eqn:Hf; [|done]. cbn [mbind res_bind] in Hr.
  destruct (Yao.rows_of f xs) as [ys'|]; [|done]. injection Hr as <-.
  destruct i as [|i]; simpl in Hi.
  - injection Hi as <-. by exists y0.
  - exact (IH ys' i eq_refl Hi).
Qed.

Lemma decrypt_under_encrypt_under ks m :
  Yao.decrypt_under ks (Yao.encrypt_under ks m) = Some m.
Proof.
  unfold Yao.decrypt_under, Yao.encrypt_under.
  revert m. induction ks as [|k ks IH]; intros m; simpl; [done|].
  rewrite IH. simpl. apply Yao.decrypt_encrypt.
Qed.

(** The evaluator's table of (key, external bit) pairs stands for the
    plaintext assignment [P]. *)
Lemma rows_of_signals (P : gmap Z Z) (G : gmap Z (Yao.CKey * Z)) ws vs :
  (∀ w, G !! w = Yao.signal rnd w <$> P !! w) →
  Forall2 (λ w v, P !! w = Some v) ws vs →
  Yao.rows_of (getitem G) ws = Ok (zip_with (Yao.signal rnd) ws vs).
Proof.
  intros HG. induction 1 as [|w v ws vs Hw _ IH]; simpl; [done|].
  assert (getitem G w = Ok (Yao.signal rnd w v)) as ->
    by (unfold getitem; by rewrite HG, Hw).
  by rewrite IH.
Qed.

Lemma signals_snd ws vs :
  snd <$> zip_with (Yao.signal rnd) ws vs
  = zip_with Z.lxor vs (Yao.rnd_pbit rnd <$> ws).
Proof.
  revert vs. induction ws as [|w ws IH]; intros [|v vs]; simpl; try done.
  by rewrite IH.
Qed.

Lemma signals_fst ws vs :
  fst <$> zip_with (Yao.signal rnd) ws vs
  = zip_with Yao.select (Yao.rnd_keys rnd <$> ws) vs.
Proof.
  revert vs. induction ws as [|w ws IH]; intros [|v vs]; simpl; try done.
  by rewrite IH.
Qed.

Lemma unmask vs ps :
  length vs = length ps →
  zip_with Z.lxor (zip_with Z.lxor vs ps) ps = vs.
Proof.
  revert ps. induction vs as [|v vs IH]; intros [|p ps] Hlen; simpl in *; try done.
  rewrite lxor_cancel, IH; [done | lia].
Qed.

Lemma evaluate_gate_correct tables (P : gmap Z Z) (G : gmap Z (Yao.CKey * Z))
    g rows vs v :
  (∀ w, G !! w = Yao.signal rnd w <$> P !! w) →
  (∀ w u, P !! w = Some u → is_bit u) →
  Forall2 (λ w u, P !! w = Some u) (g_in g) vs →
  (length (g_in g) ≤ 2)%nat →
  Yao.gate_fn (g_op g) vs = Some v →
  Yao.garble_gate rnd g = Ok rows →
  tables !! g_out g = Some rows →
  Yao.evaluate_gate tables G g = Ok (Yao.signal rnd (g_out g) v).
Proof.
  intros HG Hbits Hvs Hlen Hv Hrows Htab.
  pose proof (Forall2_length _ _ _ Hvs) as Hlenvs.
  unfold Yao.evaluate_gate.
  rewrite (rows_of_signals _ _ _ _ HG Hvs). cbn [mbind res_bind].
  unfold getitem. rewrite Htab. rewrite signals_snd, signals_fst.
  set (es := zip_with Z.lxor vs (Yao.rnd_pbit rnd <$> g_in g)).
  assert (Hes : Forall is_bit es).
  { subst es. clear -Hvs Hbits pbits_are_bits.
    induction Hvs as [|w u ws us Hw _ IH]; simpl; constructor; [|done].
    apply is_bit_lxor; [by eapply Hbits | done]. }
  assert (Hles : length es = length (g_in g)).
  { subst es. rewrite length_zip_with, length_fmap. lia. }
  pose proof (ext_rows_lookup es Hes ltac:(lia)) as Hrow.
  rewrite Hles in Hrow.
  cbn [mbind res_bind].
  destruct (rows_of_lookup _ _ _ _ _ Hrows Hrow) as (c & -> & Hc).
  unfold Yao.garble_row in Hc. subst es.
  rewrite unmask in Hc by (rewrite length_fmap; lia).
  rewrite Hv in Hc. injection Hc as <-.
  rewrite decrypt_under_encrypt_under. simpl.
  by rewrite Yao.decode_encode.
Qed.

Lemma garble_gate_total g :
  length (g_in g) = Yao.arity (g_op g) → ∃ rows, Yao.garble_gate rnd g = Ok rows.
Proof.
  destruct g as [op ins out]. unfold Yao.garble_gate, Yao.garble_row. simpl.
  intros Hlen.
  destruct op, ins as [|i0 [|i1 [|]]]; simpl in Hlen; try done; simpl; by eexists.
Qed.

Lemma garble_gates_total declared gates acc :
  Yao.check_gates declared gates = true →
  ∃ tables, Yao.garble_gates rnd gates acc = Ok tables.
Proof.
  revert declared acc. induction gates as [|g gs IH]; intros declared acc Hc; simpl.
  - by eexists.
  - simpl in Hc. rewrite !andb_true_iff, !bool_decide_eq_true in Hc.
    destruct Hc as [[[Hlen _] _] Hrest].
    destruct (garble_gate_total g Hlen) as [rows ->]. cbn [mbind res_bind].
    by eapply IH.
Qed.

Lemma garble_gates_tables declared gates acc tables :
  Yao.check_gates declared gates = true →
  Yao.garble_gates rnd gates acc = Ok tables →
  (∀ g, g ∈ gates →
     ∃ rows, Yao.garble_gate rnd g = Ok rows ∧ tables !! g_out g = Some rows)
  ∧ (∀ w, w ∉ g_out <$> gates → tables !! w = acc !! w).
Proof.
  revert declared acc. induction gates as [|g gs IH]; intros declared acc Hc Hg.
  - injection Hg as <-. split; [|done]. intros g Hin. by apply elem_of_nil in Hin.
  - pose proof Hc as Hc'. simpl in Hc'.
    rewrite !andb_true_iff, !bool_decide_eq_true in Hc'.
    destruct Hc' as [_ Hrest]. simpl in Hg.
    destruct (Yao.garble_gate rnd g) as [rows|] eqn:Hrows; [|done].
    cbn [mbind res_bind] in Hg.
    destruct (IH _ _ Hrest Hg) as [Hin Hout]. split.
    + intros g' [->|Hg']%elem_of_cons; [|by apply Hin].
      exists rows. split; [done|]. rewrite Hout; [by rewrite lookup_insert_eq|].
      intros (g' & Heq & Hg')%list_elem_of_fmap.
      apply (check_gates_fresh _ _ _ Hrest Hg'). rewrite <- Heq. by left.
    + intros w Hw. rewrite fmap_cons in Hw. apply not_elem_of_cons in Hw as [Hne Hw].
      rewrite (Hout w Hw). by rewrite lookup_insert_ne.
Qed.

(** The walk of the evaluator over garbled tables follows the plaintext
    walk: wire by wire, the pair it records is the signal of the
    plaintext value. *)
Lemma walk_correct tables gates :
  ∀ declared (P : gmap Z Z) (G : gmap Z (Yao.CKey * Z)),
    Yao.check_gates declared gates = true →
    (∀ w, w ∈ declared → is_Some (P !! w)) →
    (∀ w u, P !! w = Some u → is_bit u) →
    (∀ w, G !! w = Yao.signal rnd w <$> P !! w) →
    (∀ g, g ∈ gates →
       ∃ rows, Yao.garble_gate rnd g = Ok rows ∧ tables !! g_out g = Some rows) →
    ∃ P' G',
      Yao.plain_gates gates P = Some P'
      ∧ Yao.evaluate_gates tables gates G = Ok G'
      ∧ (∀ w, w ∈ declared ++ (g_out <$> gates) → is_Some (P' !! w))
      ∧ (∀ w u, P' !! w = Some u → is_bit u)
      ∧ (∀ w, G' !! w = Yao.signal rnd w <$> P' !! w).
Proof.
  induction gates as [|g gs IH]; intros declared P G Hc Hknown Hbits HG Htab.
  - exists P, G. repeat split; try done.
    intros w Hw. rewrite app_nil_r in Hw. by apply Hknown.
  - simpl in Hc. rewrite !andb_true_iff, !bool_decide_eq_true in Hc.
    destruct Hc as [[[Hlen Hsub] Hfresh] Hrest].
    assert (is_Some (mapM (λ w, P !! w) (g_in g))) as [vs Hvs].
    { apply mapM_is_Some, Forall_forall. intros w Hw. by apply Hknown, Hsub. }
    pose proof Hvs as Hvs2. apply mapM_Some in Hvs2.
    destruct (gate_fn_arity (g_op g) vs) as [v Hv].
    { rewrite <- Hlen. symmetry. by eapply Forall2_length. }
    assert (is_bit v) as Hbv.
    { eapply gate_fn_bit; [|exact Hv]. clear -Hvs2 Hbits.
      induction Hvs2; constructor; [by eapply Hbits | done]. }
    destruct (Htab g) as (rows & Hrows & Hlook); [by left|].
    assert (length (g_in g) ≤ 2)%nat as Hle by (rewrite Hlen; by destruct (g_op g); simpl; lia).
    pose proof (evaluate_gate_correct tables P G g rows vs v
                  HG Hbits Hvs2 Hle Hv Hrows Hlook) as Hev.
    destruct (IH (g_out g :: declared) (<[g_out g := v]> P)
                (<[g_out g := Yao.signal rnd (g_out g) v]> G))
      as (P' & G' & HP' & HG' & Hknown' & Hbits' & Hsig'); [done| | | | |].
    + intros w [->|Hw]%elem_of_cons; [by rewrite lookup_insert_eq|].
      destruct (decide (w = g_out g)) as [->|Hne]; [by rewrite lookup_insert_eq|].
      rewrite lookup_insert_ne by done. by apply Hknown.
    + intros w u. destruct (decide (w = g_out g)) as [->|Hne].
      * rewrite lookup_insert_eq. by intros [= <-].
      * rewrite lookup_insert_ne by done. apply Hbits.
    + intros w. destruct (decide (w = g_out g)) as [->|Hne].
      * by rewrite !lookup_insert_eq.
      * rewrite !lookup_insert_ne by done. apply HG.
    + intros g' Hg'. apply Htab. by right.
    + exists P', G'. split; [|split; [|split; [|split]]]; try done.
      * simpl. rewrite Hvs. simpl. rewrite Hv. simpl. exact HP'.
      * simpl. rewrite Hev. exact HG'.
      * intros w Hw. apply Hknown'. rewrite fmap_cons in Hw.
        apply elem_of_app in Hw as [Hw|[->|Hw]%elem_of_cons].
        -- apply elem_of_app. left. by right.
        -- apply elem_of_app. left. by left.
        -- apply elem_of_app. by right.
Qed.

(** What Alice binds for her bits [A], and what the transfer hands to Bob
    for his bits [B], are the signals of those bits. *)
Lemma alice_signals c (A : gmap Z Z) :
  dom A = list_to_set (get_alice c) →
  (∀ w v, A !! w = Some v → is_bit v) →
  ∃ a_inputs,
    dict_comp (λ w, v ← getitem A w;
                 Main.alice_binding (Y := Yao.lib rnd)
                   (Yao.per_wire (Yao.rnd_keys rnd) (Yao.all_wires c))
                   (Yao.per_wire (Yao.rnd_pbit rnd) (Yao.all_wires c)) w v)
      (get_alice c) ∅ = Ok a_inputs
    ∧ ∀ w, a_inputs !! w = Yao.signal rnd w <$> A !! w.
Proof.
  intros Hdom Hbits.
  assert (Hf : ∀ w, w ∈ get_alice c → ∃ v, A !! w = Some v ∧
    (v ← getitem A w;
     Main.alice_binding (Y := Yao.lib rnd)
       (Yao.per_wire (Yao.rnd_keys rnd) (Yao.all_wires c))
       (Yao.per_wire (Yao.rnd_pbit rnd) (Yao.all_wires c)) w v)
    = Ok (Yao.signal rnd w v)).
  { intros w Hw.
    assert (is_Some (A !! w)) as [v Hv].
    { apply elem_of_dom. rewrite Hdom. by apply elem_of_list_to_set. }
    exists v. split; [done|]. unfold getitem at 1. rewrite Hv. cbn [mbind res_bind].
    assert (w ∈ Yao.all_wires c) as Hall by (apply elem_of_app; by left).
    rewrite (alice_binding_eq (Y := Yao.lib rnd) _ _ w v
               (Yao.rnd_keys rnd w) (Yao.rnd_pbit rnd w)).
    - unfold Yao.signal. by rewrite Z.lxor_comm.
    - rewrite per_wire_lookup. by rewrite decide_True.
    - rewrite per_wire_lookup. by rewrite decide_True.
    - by eapply Hbits. }
  destruct (dict_comp_total
    (λ w, v ← getitem A w;
          Main.alice_binding (Y := Yao.lib rnd)
            (Yao.per_wire (Yao.rnd_keys rnd) (Yao.all_wires c))
            (Yao.per_wire (Yao.rnd_pbit rnd) (Yao.all_wires c)) w v)
    (get_alice c) ∅) as [a_inputs Ha].
  { intros w Hw. destruct (Hf w Hw) as (v & _ & ->). by eexists. }
  exists a_inputs. split; [done|]. intros w.
  destruct (dict_comp_lookup _ _ _ _ Ha w) as [Hin Hout].
  destruct (decide (w ∈ get_alice c)) as [Hw|Hw].
  - destruct (Hin Hw) as (b & Hb & Hlk). destruct (Hf w Hw) as (v & -> & Hv).
    rewrite Hv in Hb. injection Hb as <-. exact Hlk.
  - etrans; [exact (Hout Hw)|]. rewrite lookup_empty.
    assert (A !! w = None) as ->; [|done].
    apply not_elem_of_dom. rewrite Hdom. by rewrite elem_of_list_to_set.
Qed.

Lemma bob_signals c (B : gmap Z Z) b_keys :
  dom B = list_to_set (get_bob c) →
  (∀ w v, B !! w = Some v → is_bit v) →
  Main.b_keys_of (Y := Yao.lib rnd)
    (Yao.per_wire (Yao.rnd_pbit rnd) (Yao.all_wires c))
    (Yao.per_wire (Yao.rnd_keys rnd) (Yao.all_wires c)) (get_bob c) = Ok b_keys →
  ∃ b_inputs,
    OT.transfer b_keys B (get_bob c) = Ok b_inputs
    ∧ ∀ w, b_inputs !! w = Yao.signal rnd w <$> B !! w.
Proof.
  intros Hdom Hbits Hbk. unfold OT.transfer.
  assert (Hf : ∀ w, w ∈ get_bob c → ∃ v, B !! w = Some v ∧
    (pair ← getitem b_keys w; bit ← getitem B w; Ok (Yao.select pair bit))
    = Ok (Yao.signal rnd w v)).
  { intros w Hw.
    assert (is_Some (B !! w)) as [v Hv].
    { apply elem_of_dom. rewrite Hdom. by apply elem_of_list_to_set. }
    exists v. split; [done|].
    assert (w ∈ Yao.all_wires c) as Hall.
    { apply elem_of_app. right. apply elem_of_app. by left. }
    unfold getitem. rewrite (b_keys_of_lookup (Y := Yao.lib rnd) _ _ _ _ w Hbk).
    rewrite decide_True by done. rewrite !per_wire_lookup.
    rewrite !decide_True by done. simpl. rewrite Hv. simpl.
    unfold Yao.signal, Yao.select, Main._get_encr_bits.
    destruct (Hbits _ _ Hv) as [-> | ->]; simpl; [done|].
    by destruct (Yao.rnd_keys rnd w). }
  destruct (dict_comp_total
    (λ w, pair ← getitem b_keys w; bit ← getitem B w; Ok (Yao.select pair bit))
    (get_bob c) ∅) as [b_inputs Hb].
  { intros w Hw. destruct (Hf w Hw) as (v & _ & ->). by eexists. }
  exists b_inputs. split; [done|]. intros w.
  destruct (dict_comp_lookup _ _ _ _ Hb w) as [Hin Hout].
  destruct (decide (w ∈ get_bob c)) as [Hw|Hw].
  - destruct (Hin Hw) as (b & Hbw & Hlk). destruct (Hf w Hw) as (v & -> & Hv).
    rewrite Hv in Hbw. injection Hbw as <-. exact Hlk.
  - etrans; [exact (Hout Hw)|]. rewrite lookup_empty.
    assert (B !! w = None) as ->; [|done].
    apply not_elem_of_dom. rewrite Hdom. by rewrite elem_of_list_to_set.
Qed.

Lemma union_signals (A B : gmap Z Z) (a_inputs b_inputs : gmap Z (Yao.CKey * Z)) :
  (∀ w, a_inputs !! w = Yao.signal rnd w <$> A !! w) →
  (∀ w, b_inputs !! w = Yao.signal rnd w <$> B !! w) →
  ∀ w, (b_inputs ∪ a_inputs) !! w = Yao.signal rnd w <$> (B ∪ A) !! w.
Proof.
  intros Ha Hb w. rewrite !lookup_union, Ha, Hb.
  by destruct (A !! w), (B !! w).
Qed.

Lemma plain_outputs (env : gmap Z Z) outs l :
  Forall2 (λ w y, (w,.) <$> env !! w = Some y) outs l →
  ∀ w, (list_to_map l : gmap Z Z) !! w
       = if decide (w ∈ outs) then env !! w else None.
Proof.
  induction 1 as [|w0 y outs l Hy _ IH]; intros w.
  - simpl. apply lookup_empty.
  - destruct (env !! w0) as [v0|] eqn:Hw0; [|done]. injection Hy as <-.
    rewrite list_to_map_cons. cbn [fst snd].
    destruct (decide (w = w0)) as [->|Hne].
    + rewrite lookup_insert_eq. by rewrite decide_True by left.
    + rewrite lookup_insert_ne by done. rewrite IH.
      destruct (decide (w ∈ outs)) as [Hw|Hw].
      * by rewrite decide_True by (by right).
      * rewrite decide_False; [done|]. by intros [?|?]%elem_of_cons.
Qed.

Lemma outputs_agree outs (P' : gmap Z Z) (G' : gmap Z (Yao.CKey * Z))
    (pbits_out : gmap Z Z) :
  (∀ w, w ∈ outs → is_Some (P' !! w)) →
  (∀ w, G' !! w = Yao.signal rnd w <$> P' !! w) →
  (∀ w, w ∈ outs → pbits_out !! w = Some (Yao.rnd_pbit rnd w)) →
  ∃ result,
    list_to_map <$> mapM (λ w, (w,.) <$> P' !! w) outs = Some result
    ∧ dict_comp (Yao.decode_output G' pbits_out) outs ∅ = Ok result.
Proof.
  intros Hknown Hsig Hpo.
  assert (is_Some (mapM (λ w, (w,.) <$> P' !! w) outs)) as [l Hl].
  { apply mapM_is_Some, Forall_forall. intros w Hw.
    destruct (Hknown w Hw) as [v Hv]. simpl. rewrite Hv. by eexists. }
  rewrite Hl. exists (list_to_map l). split; [done|].
  apply mapM_Some in Hl.
  assert (Hf : ∀ w, w ∈ outs → Yao.decode_output G' pbits_out w
                               = match P' !! w with
                                 | Some v => Ok v
                                 | None => Raise KeyError
                                 end).
  { intros w Hw. unfold Yao.decode_output, getitem.
    rewrite Hsig, (Hpo w Hw). destruct (P' !! w) as [v|]; [|done].
    simpl. by rewrite lxor_cancel. }
  destruct (dict_comp_total (Yao.decode_output G' pbits_out) outs ∅)
    as [result Hres].
  { intros w Hw. rewrite (Hf w Hw). destruct (Hknown w Hw) as [v ->]. by eexists. }
  rewrite Hres. f_equal. apply map_eq. intros w.
  rewrite (plain_outputs _ _ _ Hl w).
  destruct (dict_comp_lookup _ _ _ _ Hres w) as [Hin Hout].
  case_decide as Hw.
  - destruct (Hin Hw) as (v & Hv & ->). rewrite (Hf w Hw) in Hv.
    destruct (P' !! w); [by injection Hv as <- | done].
  - by rewrite (Hout Hw).
Qed.

(** C1.  For every well-formed circuit (one that the garbler's check
    accepts, whatever gates among AND, OR, XOR, NOT it composes and to
    whatever depth), every assignment [A] of bits to Alice's wires and
    every assignment [B] of bits to Bob's wires, a run of the protocol
    (garbling, Alice's (key, external bit) pairs, the transfer of Bob's
    pairs, evaluation of the garbled tables, decoding with [pbits_out])
    returns exactly the plaintext evaluation of the circuit on [A] and
    [B]. *)
Theorem garbled_evaluation_is_plain_evaluation c (A B : gmap Z Z) :
  Yao.check_circuit c = true →
  dom A = list_to_set (get_alice c) →
  (∀ w v, A !! w = Some v → is_bit v) →
  dom B = list_to_set (get_bob c) →
  (∀ w v, B !! w = Some v → is_bit v) →
  ∃ result,
    Yao.plain_eval c A B = Some result
    ∧ Protocol.run rnd c A B = Ok result.
Proof.
  intros Hwf HdA HbA HdB HbB.
  pose proof Hwf as Hwf'. unfold Yao.check_circuit in Hwf'.
  rewrite !andb_true_iff, !bool_decide_eq_true in Hwf'.
  destruct Hwf' as [[_ Hgates] Houts].
  destruct (garble_gates_total _ _ ∅ Hgates) as [tables Htables].
  destruct (garble_gates_tables _ _ _ _ Hgates Htables) as [Htab _].
  set (keys := Yao.per_wire (Yao.rnd_keys rnd) (Yao.all_wires c)).
  set (pbits := Yao.per_wire (Yao.rnd_pbit rnd) (Yao.all_wires c)).
  (* the permutation bits of the outputs *)
  destruct (dict_comp_total (getitem pbits) (c_out c) ∅) as [pbits_out Hpo].
  { intros w Hw. unfold getitem, pbits. rewrite per_wire_lookup.
    rewrite decide_True by (by apply Houts). by eexists. }
  assert (Hpo' : ∀ w, w ∈ c_out c → pbits_out !! w = Some (Yao.rnd_pbit rnd w)).
  { intros w Hw. destruct (dict_comp_lookup _ _ _ _ Hpo w) as [Hin _].
    destruct (Hin Hw) as (p & Hp%getitem_Ok & ->). unfold pbits in Hp.
    rewrite per_wire_lookup in Hp. rewrite decide_True in Hp by (by apply Houts).
    done. }
  (* the inputs of the two parties *)
  destruct (alice_signals c A HdA HbA) as (a_inputs & Ha & Hasig).
  assert (∃ b_keys, Main.b_keys_of (Y := Yao.lib rnd) pbits keys (get_bob c)
                    = Ok b_keys) as [b_keys Hbk].
  { apply (b_keys_of_total (Y := Yao.lib rnd)). intros w Hw. unfold pbits.
    rewrite per_wire_lookup. rewrite decide_True; [by eexists|].
    apply elem_of_app. right. apply elem_of_app. by left. }
  destruct (bob_signals c B b_keys HdB HbB Hbk) as (b_inputs & Hb & Hbsig).
  (* the two walks *)
  destruct (walk_correct tables (c_gates c) (get_alice c ++ get_bob c)
              (B ∪ A) (b_inputs ∪ a_inputs) Hgates)
    as (P' & G' & HP' & HG' & Hknown & _ & Hsig); [| | |done|].
  { intros w Hw. rewrite lookup_union.
    assert (is_Some (A !! w) ∨ is_Some (B !! w)) as [[v ->]|[v ->]].
    { rewrite <- !elem_of_dom, HdA, HdB, !elem_of_list_to_set.
      by apply elem_of_app. }
    - by destruct (B !! w); eexists.
    - by destruct (A !! w); eexists. }
  { intros w v. rewrite lookup_union.
    destruct (B !! w) as [b|] eqn:HBw, (A !! w) as [a|] eqn:HAw;
      simpl; intros [= <-]; by eauto. }
  { by apply union_signals. }
  destruct (outputs_agree (c_out c) P' G' pbits_out) as (result & Hplain & Hdec);
    [|done|done|].
  { intros w Hw. apply Hknown. rewrite <- app_assoc. by apply Houts. }
  exists result. split.
  - unfold Yao.plain_eval. rewrite HP'. exact Hplain.
  - unfold Protocol.run, Main.YaoGarbler_init.
    cbn [GarbledCircuit get_pbits get_keys get_garbled_tables Yao.lib].
    unfold Yao.garble. rewrite Hwf, Htables.
    cbn [mbind res_bind Yao.gc_pbits Yao.gc_keys Yao.gc_tables].
    subst keys pbits. rewrite Hpo.
    cbn [mbind res_bind Main.e_keys Main.e_pbits].
    rewrite Ha. cbn [mbind res_bind]. rewrite Hbk.
    cbn [mbind res_bind].
    match goal with
    | |- context [Main.field_circuit (Main.to_send ?e)] =>
        destruct (fields_of_to_send (Y := Yao.lib rnd) e) as (-> & -> & ->)
    end.
    cbn [mbind res_bind Main.e_circuit Main.e_pbits_out Main.e_garbled_tables].
    match goal with
    | |- ?t ≫= _ = _ => assert (t = Ok b_inputs) as -> by exact Hb
    end.
    cbn [mbind res_bind]. unfold Yao.evaluate.
    match goal with
    | |- ?t ≫= _ = _ => assert (t = Ok G') as -> by exact HG'
    end.
    exact Hdec.
Qed.
End evaluation.

(** ** Decoding the outputs *)

Section output_decoding.
Context `{C : Yao.Cipher}.
Context {W : Type} `{Countable W}.

Lemma dict_comp_ext `{Countable K} {V} (f f' : K → res V) ws acc :
  (∀ w, w ∈ ws → f w = f' w) → dict_comp f ws acc = dict_comp f' ws acc.
Proof.
  revert acc. induction ws as [|w ws IH]; intros acc Hf; simpl; [done|].
  rewrite <- (Hf w) by left. destruct (f w); simpl; [|done].
  apply IH. intros w' Hw'. apply Hf. by right.
Qed.

(** C6.  Once the walk over the gates has recorded a (key, external bit)
    pair on every wire it reaches, the bit returned for an output wire is
    the recorded external bit XOR the [pbits_out] entry of that wire, and
    the result binds the output wires only.  Evaluation reads [pbits_out]
    at the output wires and nowhere else: two [pbits_out] dictionaries
    that agree on the output wires give the same result.  The dictionary
    that line 37 of [server.py] builds binds exactly the output wires,
    each to its [pbit]. *)
Theorem outputs_decoded_with_pbits_out circuit tables pbits_out
    a_inputs b_inputs result (sc : Server.Circuit (W := W)) spo :
  Yao.evaluate circuit tables pbits_out a_inputs b_inputs = Ok result →
  Server.pbits_out_of sc = Ok spo →
  (∃ wire_inputs,
     Yao.evaluate_gates tables (c_gates circuit) (b_inputs ∪ a_inputs)
     = Ok wire_inputs
     ∧ dom result = list_to_set (c_out circuit)
     ∧ ∀ w, w ∈ c_out circuit →
         ∃ key external_bit pbit,
           wire_inputs !! w = Some (key, external_bit)
           ∧ pbits_out !! w = Some pbit
           ∧ result !! w = Some (Z.lxor external_bit pbit))
  ∧ (∀ pbits_out',
       (∀ w, w ∈ c_out circuit → pbits_out' !! w = pbits_out !! w) →
       Yao.evaluate circuit tables pbits_out' a_inputs b_inputs = Ok result)
  ∧ dom spo = list_to_set (Server.out sc)
  ∧ (∀ w, w ∈ Server.out sc →
       spo !! w = Server.w_pbit <$> Server.wires sc !! w).
Proof.
  intros Hev Hspo. unfold Yao.evaluate in Hev.
  destruct (Yao.evaluate_gates _ _ _) as [wire_inputs|] eqn:Hwalk; [|done].
  cbn [mbind res_bind] in Hev. split; [|split; [|split]].
  - exists wire_inputs. split; [done|]. split.
    + by rewrite (dict_comp_dom _ _ _ _ Hev), dom_empty_L, union_empty_r_L.
    + intros w Hw. destruct (dict_comp_lookup _ _ _ _ Hev w) as [Hin _].
      destruct (Hin Hw) as (v & Hv & Hres). unfold Yao.decode_output, getitem in Hv.
      destruct (wire_inputs !! w) as [[key e]|]; [|done].
      cbn [mbind res_bind] in Hv.
      destruct (pbits_out !! w) as [pbit|]; [|done].
      injection Hv as <-. by exists key, e, pbit.
  - intros pbits_out' Hagree. unfold Yao.evaluate. rewrite Hwalk.
    cbn [mbind res_bind]. rewrite <- Hev. apply dict_comp_ext.
    intros w Hw. unfold Yao.decode_output, getitem. by rewrite (Hagree w Hw).
  - unfold Server.pbits_out_of in Hspo.
    by rewrite (dict_comp_dom _ _ _ _ Hspo), dom_empty_L, union_empty_r_L.
  - intros w Hw. unfold Server.pbits_out_of in Hspo.
    destruct (dict_comp_lookup _ _ _ _ Hspo w) as [Hin _].
    destruct (Hin Hw) as (v & Hv & ->). unfold getitem in Hv.
    destruct (Server.wires sc !! w); [|done]. by injection Hv as <-.
Qed.
End output_decoding.

(** ** The definitions at work on the small instance *)

Lemma toy_laws : Yao.CipherLaws (H := Example.toy).
Proof.
  split.
  - intros k m. simpl. by rewrite decide_True.
  - by intros [k e].
Qed.

Lemma example_pbits_are_bits w : is_bit (Yao.rnd_pbit Example.rnd w).
Proof.
  unfold is_bit. simpl. pose proof (Z.mod_pos_bound w 2 ltac:(lia)). lia.
Qed.

Lemma garbled_evaluation_is_plain_evaluation_witness :
  Yao.check_circuit Example.circuit = true
  ∧ dom Example.A = list_to_set (get_alice Example.circuit)
  ∧ dom Example.B = list_to_set (get_bob Example.circuit)
  ∧ Protocol.run Example.rnd Example.circuit Example.A Example.B
    = Ok (<[8 := 1]> (<[7 := 0]> ∅))
  ∧ ∃ result,
      Yao.plain_eval Example.circuit Example.A Example.B = Some result
      ∧ Protocol.run Example.rnd Example.circuit Example.A Example.B = Ok result.
Proof.
  assert (Hwf : Yao.check_circuit Example.circuit = true) by reflexivity.
  assert (HdA : dom Example.A = list_to_set (get_alice Example.circuit))
    by reflexivity.
  assert (HdB : dom Example.B = list_to_set (get_bob Example.circuit))
    by reflexivity.
  assert (HbA : ∀ w v, Example.A !! w = Some v → is_bit v).
  { intros w v Hv. unfold Example.A in Hv.
    repeat (apply lookup_insert_Some in Hv as [[_ <-]|[_ Hv]];
            [(by left) || (by right)|]).
    by rewrite lookup_empty in Hv. }
  assert (HbB : ∀ w v, Example.B !! w = Some v → is_bit v).
  { intros w v Hv. unfold Example.B in Hv.
    repeat (apply lookup_insert_Some in Hv as [[_ <-]|[_ Hv]];
            [(by left) || (by right)|]).
    by rewrite lookup_empty in Hv. }
  split; [exact Hwf|]. split; [exact HdA|]. split; [exact HdB|].
  split; [reflexivity|].
  exact (garbled_evaluation_is_plain_evaluation (L := toy_laws) Example.rnd
           example_pbits_are_bits Example.circuit Example.A Example.B
           Hwf HdA HbA HdB HbB).
Defined.

Lemma bundle_is_circuit_tables_pbits_out_witness :
  Main.YaoGarbler_init Example.circuit = Ok Example.entry
  ∧ Main.Alice_start Example.alice ∅
    = (Raise KeyError,
       [Main.SendWait (Main.to_send Example.entry);
        Main.Print "======== demo ========";
        Main.OTGetResult Example.a_inputs Example.b_keys])
  ∧ dom (Main.to_send Example.entry)
    = {["circuit"]} ∪ {["garbled_tables"]} ∪ {["pbits_out"]}
  ∧ dom (Main.e_pbits_out Example.entry) = list_to_set [8; 7].
Proof.
  assert (Hinit : Main.YaoGarbler_init Example.circuit = Ok Example.entry)
    by reflexivity.
  assert (Hstart : Main.Alice_start Example.alice ∅
    = (Raise KeyError,
       [Main.SendWait (Main.to_send Example.entry);
        Main.Print "======== demo ========";
        Main.OTGetResult Example.a_inputs Example.b_keys]))
    by reflexivity.
  split; [exact Hinit|]. split; [exact Hstart|].
  pose proof (bundle_is_circuit_tables_pbits_out Example.circuit Example.entry
                Example.alice ∅ _ _ Hinit eq_refl Hstart)
    as (_ & Hdom & _ & _ & _ & _ & Hpo & _).
  split; [exact Hdom | exact Hpo].
Defined.

Lemma outputs_decoded_with_pbits_out_witness :
  Yao.evaluate Example.circuit (Main.e_garbled_tables Example.entry)
    (Main.e_pbits_out Example.entry) Example.a_inputs Example.b_inputs
  = Ok (<[8 := 1]> (<[7 := 0]> ∅))
  ∧ Server.pbits_out_of Example.server_circuit = Ok (<["o" := 1]> ∅)
  ∧ dom (<[8 := 1]> (<[7 := 0]> (∅ : gmap Z Z))) = list_to_set [8; 7]
  ∧ dom (<["o" := 1]> (∅ : gmap string Z)) = list_to_set ["o"].
Proof.
  assert (Hev : Yao.evaluate Example.circuit (Main.e_garbled_tables Example.entry)
                  (Main.e_pbits_out Example.entry) Example.a_inputs Example.b_inputs
                = Ok (<[8 := 1]> (<[7 := 0]> ∅))) by reflexivity.
  assert (Hsp : Server.pbits_out_of Example.server_circuit = Ok (<["o" := 1]> ∅))
    by reflexivity.
  split; [exact Hev|]. split; [exact Hsp|].
  destruct (outputs_decoded_with_pbits_out _ _ _ _ _ _ _ _ Hev Hsp)
    as ((wi & _ & Hdom & _) & _ & Hsdom & _).
  split; [exact Hdom | exact Hsdom].
Defined.


(** * Further properties of [main.py] *)

(** ** The input loops and the typed lines *)

Section typed_lines.
Context `{Y : YaoLib}.
Variable py_int : string → option Z.

(** One run of the [while True] loop takes the first bit among the lines
    and leaves the lines after it; it fails, with [EOFError], exactly when
    the lines hold no bit. *)
Lemma read_bit_typed wire stdin :
  match (Main.read_bit py_int wire stdin).1 with
  | Ok (value, rest) =>
      Main.typed_bits py_int stdin = value :: Main.typed_bits py_int rest
  | Raise e => e = EOFError ∧ Main.typed_bits py_int stdin = []
  end.
Proof.
  induction stdin as [|line stdin IH]; simpl; [done|].
  destruct (py_int line) as [v|]; [case_decide|];
    try (destruct (Main.read_bit py_int wire stdin) as [[[v' rest']|e'] out']);
    simpl in *; done.
Qed.

Lemma bob_loop_typed ws acc stdin :
  match (Main.bob_loop py_int ws acc stdin).1 with
  | Ok (m, rest) =>
      (length ws ≤ length (Main.typed_bits py_int stdin))%nat
      ∧ Main.typed_bits py_int rest
        = drop (length ws) (Main.typed_bits py_int stdin)
      ∧ ∀ i w, ws !! i = Some w → w ∉ drop (S i) ws →
          m !! w = Main.typed_bits py_int stdin !! i
  | Raise e =>
      e = EOFError ∧ (length (Main.typed_bits py_int stdin) < length ws)%nat
  end.
Proof.
  revert acc stdin. induction ws as [|w0 ws IH]; intros acc stdin; simpl.
  - split; [lia|]. split; [done|]. intros i w Hi. by rewrite lookup_nil in Hi.
  - pose proof (read_bit_typed w0 stdin) as Hrd.
    destruct (Main.read_bit py_int w0 stdin) as [[[v stdin']|e] out0]; simpl in Hrd.
    + pose proof (IH (<[w0:=v]> acc) stdin') as Hrec.
      pose proof (bob_loop_spec py_int ws (<[w0:=v]> acc) stdin') as Hspec.
      destruct (Main.bob_loop py_int ws (<[w0:=v]> acc) stdin')
        as [[[m rest]|e] out1]; simpl in *; rewrite Hrd; simpl.
      * destruct Hrec as (Hlen & Hrest & Hval). split; [lia|]. split; [done|].
        intros [|i] w Hi Hlast; simpl in *.
        -- injection Hi as <-.
           destruct (Hspec m rest out1 eq_refl w0) as [_ Hout].
           by rewrite (Hout Hlast), lookup_insert_eq.
        -- by apply Hval.
      * destruct Hrec as [-> Hlen]. split; [done | lia].
    + destruct Hrd as [-> ->]. split; [done | simpl; lia].
Qed.

Lemma bob_inputs_are_the_typed_bits b_wires stdin :
  match (Main.get_bob_inputs py_int b_wires stdin).1 with
  | Ok (b_inputs_clear, rest) =>
      (length b_wires ≤ length (Main.typed_bits py_int stdin))%nat
      ∧ Main.typed_bits py_int rest
        = drop (length b_wires) (Main.typed_bits py_int stdin)
      ∧ ∀ i wire, b_wires !! i = Some wire → wire ∉ drop (S i) b_wires →
          b_inputs_clear !! wire = Main.typed_bits py_int stdin !! i
  | Raise e =>
      e = EOFError
      ∧ (length (Main.typed_bits py_int stdin) < length b_wires)%nat
  end.
Proof.
  unfold Main.get_bob_inputs.
  pose proof (bob_loop_typed b_wires ∅ stdin) as Hl.
  by destruct (Main.bob_loop py_int b_wires ∅ stdin) as [r out].
Qed.

(** X1.  [get_bob_inputs] returns exactly when the typed lines hold at
    least as many bits as there are wires, and fails with [EOFError]
    otherwise.  When it returns, the wires were served in order: the wire
    at position [i] (counting its last occurrence in the list) is bound to
    the [i]-th bit typed, and the lines left unread hold the remaining
    bits. *)
Theorem get_bob_inputs_follows_typed_bits b_wires stdin :
  match (Main.get_bob_inputs py_int b_wires stdin).1 with
  | Ok (b_inputs_clear, rest) =>
      (length b_wires ≤ length (Main.typed_bits py_int stdin))%nat
      ∧ Main.typed_bits py_int rest
        = drop (length b_wires) (Main.typed_bits py_int stdin)
      ∧ ∀ i wire, b_wires !! i = Some wire → wire ∉ drop (S i) b_wires →
          b_inputs_clear !! wire = Main.typed_bits py_int stdin !! i
  | Raise e =>
      e = EOFError
      ∧ (length (Main.typed_bits py_int stdin) < length b_wires)%nat
  end.
Proof.
  unfold Main.get_bob_inputs.
  pose proof (bob_loop_typed b_wires ∅ stdin) as Hl.
  by destruct (Main.bob_loop py_int b_wires ∅ stdin) as [r out].
Qed.

Lemma alice_binding_raises keys pbits wire value e :
  value = 0 ∨ value = 1 →
  Main.alice_binding keys pbits wire value = Raise e →
  e = KeyError ∧ (keys !! wire = None ∨ pbits !! wire = None).
Proof.
  intros Hv. unfold Main.alice_binding, getitem.
  destruct (keys !! wire) as [ks|]; [|intros [= <-]; by auto].
  cbn [mbind res_bind]. rewrite (tuple2_index_bit _ _ Hv). cbn [mbind res_bind].
  destruct (pbits !! wire); [done|]. intros [= <-]. by auto.
Qed.

Lemma alice_loop_raises keys pbits ws acc stdin e out :
  Main.alice_loop py_int keys pbits ws acc stdin = (Raise e, out) →
  e = EOFError
  ∨ (e = KeyError ∧ ∃ w, w ∈ ws ∧ (keys !! w = None ∨ pbits !! w = None)).
Proof.
  revert acc stdin out. induction ws as [|w0 ws IH]; intros acc stdin out Hl;
    simpl in Hl; [done|].
  pose proof (read_bit_typed w0 stdin) as Hty.
  destruct (Main.read_bit py_int w0 stdin) as [[[v stdin']|e0] out0] eqn:Hrd.
  - apply read_bit_spec in Hrd as [Hv _].
    destruct (Main.alice_binding keys pbits w0 v) as [b|e1] eqn:Hb.
    + destruct (Main.alice_loop py_int keys pbits ws (<[w0:=b]> acc) stdin')
        as [r out1] eqn:Hrec. injection Hl as -> <-.
      destruct (IH _ _ _ Hrec) as [?|(? & w & Hw & Hmiss)]; [by left|].
      right. split; [done|]. exists w. split; [by right | done].
    + injection Hl as <- <-.
      destruct (alice_binding_raises _ _ _ _ _ Hv Hb) as [-> Hmiss].
      right. split; [done|]. exists w0. split; [by left | done].
  - injection Hl as <- <-. simpl in Hty. left. by destruct Hty.
Qed.

Lemma alice_loop_total keys pbits ws acc stdin :
  (∀ w, w ∈ ws → is_Some (keys !! w) ∧ is_Some (pbits !! w)) →
  (length ws ≤ length (Main.typed_bits py_int stdin))%nat →
  ∃ m rest out,
    Main.alice_loop py_int keys pbits ws acc stdin = (Ok (m, rest), out).
Proof.
  revert acc stdin. induction ws as [|w0 ws IH]; intros acc stdin Hcov Hlen; simpl.
  - by eexists _, _, _.
  - pose proof (read_bit_typed w0 stdin) as Hty.
    destruct (Main.read_bit py_int w0 stdin) as [[[v stdin']|e0] out0] eqn:Hrd;
      simpl in Hty.
    + apply read_bit_spec in Hrd as [Hv _].
      destruct (Hcov w0) as [[ks Hk] [p Hp]]; [by left|].
      rewrite (alice_binding_eq _ _ _ _ _ _ Hk Hp Hv).
      destruct (IH (<[w0:=(Yao.select ks v, Z.lxor p v)]> acc) stdin')
        as (m & rest & out & ->).
      * intros w Hw. apply Hcov. by right.
      * rewrite Hty in Hlen. simpl in Hlen. lia.
      * by eexists _, _, _.
    + destruct Hty as [_ Hnil]. rewrite Hnil in Hlen. simpl in Hlen. lia.
Qed.

(** X2.  [get_alice_inputs] fails in two ways only: with [EOFError] when
    the typed lines run out, or with [KeyError] when one of Alice's wires
    has no key pair or no permutation bit.  The index [keys[value]] is never
    out of range, the value having been checked.  It returns whenever every
    wire of Alice has a key pair and a permutation bit and the typed lines
    hold a bit for each of her wires. *)
Theorem get_alice_inputs_failures entry stdin :
  (∀ e out,
     Main.get_alice_inputs py_int entry stdin = (Raise e, out) →
     e = EOFError
     ∨ (e = KeyError
        ∧ ∃ wire, wire ∈ get_alice (Main.e_circuit entry)
            ∧ (Main.e_keys entry !! wire = None
               ∨ Main.e_pbits entry !! wire = None)))
  ∧ ((∀ wire, wire ∈ get_alice (Main.e_circuit entry) →
        is_Some (Main.e_keys entry !! wire)
        ∧ is_Some (Main.e_pbits entry !! wire)) →
     (length (get_alice (Main.e_circuit entry))
      ≤ length (Main.typed_bits py_int stdin))%nat →
     ∃ a_inputs rest out,
       Main.get_alice_inputs py_int entry stdin = (Ok (a_inputs, rest), out)).
Proof.
  split.
  - intros e out Hget. unfold Main.get_alice_inputs in Hget.
    destruct (Main.alice_loop _ _ _ _ _ _) as [r out'] eqn:Hloop.
    injection Hget as -> <-. by eapply alice_loop_raises.
  - intros Hcov Hlen. unfold Main.get_alice_inputs.
    destruct (alice_loop_total (Main.e_keys entry) (Main.e_pbits entry)
                (get_alice (Main.e_circuit entry)) ∅ stdin Hcov Hlen)
      as (m & rest & out & ->). by eexists _, _, _.
Qed.

(** X3.  The external bit that [get_alice_inputs] sends for a wire, XORed
    with the wire's permutation bit, is the value that was typed, whatever
    integer the permutation bit is.  The two entries that [_get_encr_bits]
    builds for a wire never carry the same external bit, and when the
    permutation bit is 0 or 1 they carry 0 and 1 in one order or the
    other. *)
Theorem external_bit_unmasks keys pbits wire value b pbit :
  Main.alice_binding keys pbits wire value = Ok b →
  pbits !! wire = Some pbit →
  Z.lxor b.2 pbit = value
  ∧ (∀ key0 key1,
       (Main._get_encr_bits pbit key0 key1).1.2
       ≠ (Main._get_encr_bits pbit key0 key1).2.2)
  ∧ (is_bit pbit →
     ∀ key0 key1,
       Main._get_encr_bits pbit key0 key1 = ((key0, pbit), (key1, 1 - pbit))).
Proof.
  intros Hb Hp. split; [|split].
  - unfold Main.alice_binding, getitem in Hb. rewrite Hp in Hb.
    destruct (keys !! wire) as [ks|]; [|done]. cbn [mbind res_bind] in Hb.
    destruct (tuple2_index ks value) as [k|]; [|done]. injection Hb as <-.
    cbn [snd]. by rewrite (Z.lxor_comm pbit), Z.lxor_assoc, Z.lxor_nilpotent,
      Z.lxor_0_r.
  - intros key0 key1. unfold Main._get_encr_bits. cbn [fst snd]. intros Heq.
    apply (f_equal (λ x, Z.lxor x pbit)) in Heq.
    rewrite !Z.lxor_assoc, !Z.lxor_nilpotent in Heq. done.
  - intros [-> | ->] key0 key1; reflexivity.
Qed.
End typed_lines.

Lemma get_alice_inputs_failures_witness :
  Main.get_alice_inputs Example.int_of_line Example.entry ["x"; "1"]
  = (Raise EOFError,
     (Main.get_alice_inputs Example.int_of_line Example.entry ["x"; "1"]).2)
  ∧ (EOFError = EOFError
     ∨ (EOFError = KeyError
        ∧ ∃ wire, wire ∈ get_alice (Main.e_circuit Example.entry)
            ∧ (Main.e_keys Example.entry !! wire = None
               ∨ Main.e_pbits Example.entry !! wire = None))).
Proof.
  assert (Hrun : Main.get_alice_inputs Example.int_of_line Example.entry ["x"; "1"]
    = (Raise EOFError,
       (Main.get_alice_inputs Example.int_of_line Example.entry ["x"; "1"]).2))
    by reflexivity.
  split; [exact Hrun|].
  exact (proj1 (get_alice_inputs_failures Example.int_of_line Example.entry
                  ["x"; "1"]) _ _ Hrun).
Defined.

Lemma external_bit_unmasks_witness :
  Main.alice_binding (Main.e_keys Example.entry) (Main.e_pbits Example.entry) 1 1
  = Ok (11, 0)
  ∧ Main.e_pbits Example.entry !! 1 = Some 1
  ∧ Z.lxor (11, 0).2 1 = 1.
Proof.
  assert (Hb : Main.alice_binding (Main.e_keys Example.entry)
                 (Main.e_pbits Example.entry) 1 1 = Ok (11, 0)) by reflexivity.
  assert (Hp : Main.e_pbits Example.entry !! 1 = Some 1) by reflexivity.
  split; [exact Hb|]. split; [exact Hp|].
  exact (proj1 (external_bit_unmasks _ _ _ _ _ _ Hb Hp)).
Defined.

(** ** Alice's run and what reaches Bob *)

Section alice_and_bob.
Context `{Y : YaoLib}.
Variable py_int : string → option Z.

Lemma read_bit_console wire stdin :
  Forall Main.console (Main.read_bit py_int wire stdin).2.
Proof.
  induction stdin as [|line stdin IH]; simpl; [by repeat constructor|].
  destruct (py_int line) as [v|]; [case_decide|];
    try destruct (Main.read_bit py_int wire stdin); simpl in *;
    repeat (apply Forall_cons_2; [exact I|]); done.
Qed.

Lemma alice_loop_console keys pbits ws acc stdin :
  Forall Main.console (Main.alice_loop py_int keys pbits ws acc stdin).2.
Proof.
  revert acc stdin. induction ws as [|w ws IH]; intros acc stdin; simpl; [done|].
  pose proof (read_bit_console w stdin) as Hq.
  destruct (Main.read_bit py_int w stdin) as [[[v stdin']|e] out0]; [|done].
  destruct (Main.alice_binding keys pbits w v) as [b|e]; [|done].
  specialize (IH (<[w:=b]> acc) stdin').
  destruct (Main.alice_loop py_int keys pbits ws _ stdin') as [r out1].
  by apply Forall_app.
Qed.


(** X6.  What Bob reads back from the dictionary that [Alice.start] builds
    is what Alice put in.  On that dictionary, [send_evaluation] asks for
    the inputs of the wires in the circuit's ["bob"] list and hands to
    [ot.send_result] Alice's circuit, her garbled tables and her
    [pbits_out], unchanged, with the bits read; it fails only if reading
    the inputs fails. *)
Theorem send_evaluation_reads_back_to_send entry stdin :
  Main.send_evaluation py_int (Main.to_send entry) stdin
  = match Main.get_bob_inputs py_int (get_bob (Main.e_circuit entry)) stdin with
    | (Ok (b_inputs_clear, stdin'), out) =>
        (Ok stdin',
         out ++ [Main.Print ("Received " +:+ c_id (Main.e_circuit entry));
                 Main.OTSendResult (Main.e_circuit entry)
                   (Main.e_garbled_tables entry) (Main.e_pbits_out entry)
                   b_inputs_clear])
    | (Raise e, out) => (Raise e, out)
    end.
Proof.
  unfold Main.send_evaluation.
  destruct (fields_of_to_send entry) as (-> & -> & ->). reflexivity.
Qed.

Lemma dict_comp_raises `{Countable K} {V} (f : K → res V) ws acc e :
  dict_comp f ws acc = Raise e → ∃ w, w ∈ ws ∧ f w = Raise e.
Proof.
  revert acc. induction ws as [|w0 ws IH]; intros acc Hd; simpl in Hd; [done|].
  destruct (f w0) as [v|e0] eqn:Hf; simpl in Hd.
  - destruct (IH _ Hd) as (w & Hw & Hfw). exists w. split; [by right | done].
  - injection Hd as <-. exists w0. split; [by left | done].
Qed.

(** X7.  [YaoGarbler.__init__] succeeds exactly when the garbling succeeds
    and gave a permutation bit to every wire of the circuit's ["out"] list.
    An exception of the garbling passes through unchanged; an output wire
    without a permutation bit is a [KeyError]. *)
Theorem YaoGarbler_init_outcomes circuit :
  match GarbledCircuit circuit with
  | Raise e => Main.YaoGarbler_init circuit = Raise e
  | Ok g =>
      ((∀ w, w ∈ c_out circuit → is_Some (get_pbits g !! w)) →
       ∃ entry, Main.YaoGarbler_init circuit = Ok entry
                ∧ Main.e_garbled_circuit entry = g)
      ∧ ((∃ w, w ∈ c_out circuit ∧ get_pbits g !! w = None) →
         Main.YaoGarbler_init circuit = Raise KeyError)
  end.
Proof.
  unfold Main.YaoGarbler_init.
  destruct (GarbledCircuit circuit) as [g|e]; [|done]. cbn [mbind res_bind]. split.
  - intros Hcov.
    destruct (dict_comp_total (getitem (get_pbits g)) (c_out circuit) ∅)
      as [po ->]; [|by eexists].
    intros w Hw. destruct (Hcov w Hw) as [p Hp]. exists p. by apply getitem_Ok.
  - intros (w & Hw & Hnone).
    destruct (dict_comp _ _ _) as [po|e] eqn:Hpo.
    + destruct (dict_comp_lookup _ _ _ _ Hpo w) as [Hin _].
      destruct (Hin Hw) as (v & Hv%getitem_Ok & _). congruence.
    + cbn [mbind res_bind]. apply dict_comp_raises in Hpo as (w' & _ & Hf).
      unfold getitem in Hf. destruct (get_pbits g !! w'); [done|]. by injection Hf as <-.
Qed.

Lemma list_comp_spec {A B} (f : A → res B) ws :
  match Main.list_comp f ws with
  | Ok vs => Forall2 (λ w v, f w = Ok v) ws vs
  | Raise e => ∃ w, w ∈ ws ∧ f w = Raise e
  end.
Proof.
  induction ws as [|w ws IH]; simpl; [by constructor|].
  destruct (f w) as [v|e] eqn:Hf; simpl.
  - destruct (Main.list_comp f ws) as [vs|e]; simpl.
    + by constructor.
    + destruct IH as (w' & Hw' & Hf'). exists w'. split; [by right | done].
  - exists w. split; [by left | done].
Qed.

End alice_and_bob.


(** ** The menus of [main] and the command line *)

Section menus.
Context `{Y : YaoLib}.
Variable py_int : string → option Z.

(** The menu loop returns a number between 1 and [n], and fails only when
    the lines run out. *)
Lemma read_choice_spec n stdin :
  match Main.read_choice py_int n stdin with
  | Ok (choice, rest) => (1 ≤ choice ≤ n)%nat
  | Raise e => e = EOFError
  end.
Proof.
  induction stdin as [|line stdin IH]; simpl; [done|].
  destruct (py_int line) as [c|]; [|done]. case_decide as Hc; [done|]. lia.
Qed.

End menus.

(** * Further properties of [server.py] *)

Section server_facts.
Context {W : Type} `{Countable W}.
Context {Table : Type}.
Variable parse_bytes : list Byte.byte → Table.
Variable int_of_bytes : list Byte.byte → option Z.

Lemma recv_bounds bufsize s data s' :
  Server.recv bufsize s = Ok (data, s') →
  0 ≤ bufsize ∧ Z.of_nat (length data) ≤ bufsize.
Proof.
  unfold Server.recv. case_decide as Hneg; [done|].
  destruct s as [|chunk rest].
  - intros [= <- <-]. simpl. lia.
  - case_decide as Hlen; intros [= <- <-]; [lia|]. rewrite length_take. lia.
Qed.

Lemma receive_data_bounds s data_length data s' :
  Server.receive_data int_of_bytes s = Ok ((data_length, data), s') →
  0 ≤ data_length ∧ Z.of_nat (length data) ≤ data_length.
Proof.
  unfold Server.receive_data, Server.recv_int.
  destruct (Server.recv 1024 s) as [[d s1]|]; [|done]. cbn [mbind res_bind].
  destruct (int_of_bytes d) as [n|]; [|done]. cbn [mbind res_bind].
  destruct (Server.recv n s1) as [[d' s2]|] eqn:Hrecv; [|done].
  cbn [mbind res_bind]. intros [= <- <- <-]. by eapply recv_bounds.
Qed.

Lemma receive_tables_names n (tables : gmap Z Table) s tables' s' :
  Server.receive_tables parse_bytes int_of_bytes n tables s = Ok (tables', s') →
  ∀ name, is_Some (tables' !! name) → is_Some (tables !! name) ∨ 0 ≤ name.
Proof.
  revert tables s. induction n as [|n IH]; intros tables s Hr name Hname;
    simpl in Hr.
  - injection Hr as <- <-. by left.
  - destruct (Server.receive_data int_of_bytes s) as [[[len data] s1]|] eqn:Hd;
      [|done]. cbn [mbind res_bind] in Hr.
    destruct (IH _ _ Hr name Hname) as [Hin|?]; [|by right].
    destruct (decide (name = len)) as [->|Hne].
    + right. by eapply receive_data_bounds.
    + left. by rewrite lookup_insert_ne in Hin.
Qed.

Lemma receive_keys_entries n (keys : gmap Z (list Byte.byte * list Byte.byte))
    s keys' s' :
  Server.receive_keys int_of_bytes n keys s = Ok (keys', s') →
  ∀ wire a b, keys' !! wire = Some (a, b) →
    keys !! wire = Some (a, b)
    ∨ (0 ≤ wire
       ∧ Z.of_nat (length a + length b) ≤ wire
       ∧ length a = ((length a + length b) `div` 2)%nat).
Proof.
  revert keys s. induction n as [|n IH]; intros keys s Hr wire a b Hw; simpl in Hr.
  - injection Hr as <- <-. by left.
  - destruct (Server.receive_data int_of_bytes s) as [[[len data] s1]|] eqn:Hd;
      [|done]. cbn [mbind res_bind] in Hr.
    destruct (IH _ _ Hr wire a b Hw) as [Hin|?]; [|by right].
    destruct (decide (wire = len)) as [->|Hne].
    + right. rewrite lookup_insert_eq in Hin. injection Hin as <- <-.
      destruct (receive_data_bounds _ _ _ _ Hd) as [Hpos Hlen].
      rewrite <- length_app, take_drop. split; [done|]. split; [done|].
      rewrite length_take. apply Nat.min_l, Nat.Div0.div_le_upper_bound. lia.
    + left. by rewrite lookup_insert_ne in Hin.
Qed.

(** X11.  The dictionaries that [receive_garbled_data] returns are keyed by
    the lengths that were announced for the payloads: [receive_data]
    returns the pair (announced length, payload) and the loops use its first
    component as the table name and as the wire.  So every key is a
    non-negative integer, the two halves stored under a wire have together
    at most that many bytes, and the first half is the shorter one when the
    payload has an odd number of bytes. *)
Theorem receive_garbled_data_keyed_by_length s garbled_tables keys s' :
  Server.receive_garbled_data parse_bytes int_of_bytes s
  = Ok ((garbled_tables, keys), s') →
  (∀ table_name, is_Some (garbled_tables !! table_name) → 0 ≤ table_name)
  ∧ ∀ wire a b, keys !! wire = Some (a, b) →
      0 ≤ wire
      ∧ Z.of_nat (length a + length b) ≤ wire
      ∧ length a = ((length a + length b) `div` 2)%nat.
Proof.
  unfold Server.receive_garbled_data. intros Hr.
  destruct (Server.recv_int int_of_bytes s) as [[nt s1]|]; [|done].
  cbn [mbind res_bind] in Hr.
  destruct (Server.receive_tables _ _ _ _ _) as [[tables s2]|] eqn:Ht; [|done].
  cbn [mbind res_bind] in Hr.
  destruct (Server.recv_int int_of_bytes s2) as [[nk s3]|]; [|done].
  cbn [mbind res_bind] in Hr.
  destruct (Server.receive_keys _ _ _ _) as [[ks s4]|] eqn:Hk; [|done].
  cbn [mbind res_bind] in Hr. injection Hr as <- <- <-. split.
  - intros name Hname.
    destruct (receive_tables_names _ _ _ _ _ Ht name Hname) as [[? Hin]|?];
      [by rewrite lookup_empty in Hin | done].
  - intros wire a b Hw.
    destruct (receive_keys_entries _ _ _ _ _ Hk wire a b Hw) as [Hin|?];
      [by rewrite lookup_empty in Hin | done].
Qed.

(** X12.  [handle] gets as far as the call of [yao.evaluate] only for a
    circuit without a wire of type ["BOB"]: with one, [receive_inputs]
    raises on its first message.  The call is then made with [None] for
    Alice's inputs, with no input of Bob, and with a [pbits_out] that binds
    exactly the circuit's output wires. *)
Theorem handle_reaches_evaluate_without_bob
    (parse_circuit : list Byte.byte → res (Server.Circuit (W := W))) s call :
  Server.handle parse_bytes int_of_bytes parse_circuit s = Ok call →
  Server.ev_a_inputs call = None
  ∧ Server.ev_b_inputs call = ∅
  ∧ (∀ w info, Server.wires (Server.ev_circuit call) !! w = Some info →
       Server.w_type info ≠ "BOB")
  ∧ dom (Server.ev_pbits_out call)
    = list_to_set (Server.out (Server.ev_circuit call)).
Proof.
  unfold Server.handle. intros Hh.
  destruct (Server.recv _ s) as [[cd s1]|]; [|done]. cbn [mbind res_bind] in Hh.
  destruct (parse_circuit cd) as [circuit|]; [|done]. cbn [mbind res_bind] in Hh.
  destruct (Server.receive_garbled_data _ _ s1) as [[[gt ks] s2]|]; [|done].
  cbn [mbind res_bind] in Hh.
  destruct (Server.receive_inputs int_of_bytes circuit s2) as [[bi s3]|] eqn:Hin;
    [|done]. cbn [mbind res_bind] in Hh.
  destruct (Server.pbits_out_of circuit) as [po|] eqn:Hpo; [|done].
  cbn [mbind res_bind] in Hh. injection Hh as <-. cbn.
  unfold Server.receive_inputs in Hin.
  destruct (length _) eqn:Hlen.
  - injection Hin as <- <-. split; [done|]. split; [done|]. split.
    + intros w info Hw Hbob. apply nil_length_inv in Hlen.
      apply (filter_nil_not_elem_of _ _ w Hlen).
      * cbn beta. by rewrite Hw, <- Hbob.
      * apply elem_of_elements, elem_of_dom. by eexists.
    + unfold Server.pbits_out_of in Hpo.
      by rewrite (dict_comp_dom _ _ _ _ Hpo), dom_empty_L, union_empty_r_L.
  - by destruct (Server.receive_data int_of_bytes s2) as [[[? ?] ?]|].
Qed.

(** X13.  Edge cases of the receiving loops.  Once the peer is gone [recv]
    returns the empty byte string, which [int] refuses: [receive_data],
    a loop with an iteration left and [receive_garbled_data] raise
    [ValueError] on a connection with nothing to read.  A count that is
    announced as zero or negative makes its loop read nothing. *)
Theorem receiving_edge_cases :
  int_of_bytes [] = None →
  Server.receive_data int_of_bytes [] = Raise ValueError
  ∧ (∀ n keys, Server.receive_keys int_of_bytes (S n) keys [] = Raise ValueError)
  ∧ (∀ n tables,
       Server.receive_tables parse_bytes int_of_bytes (S n) tables []
       = Raise ValueError)
  ∧ Server.receive_garbled_data parse_bytes int_of_bytes [] = Raise ValueError
  ∧ (∀ s num_tables num_keys s1 s2,
       Server.recv_int int_of_bytes s = Ok (num_tables, s1) →
       Server.recv_int int_of_bytes s1 = Ok (num_keys, s2) →
       num_tables ≤ 0 → num_keys ≤ 0 →
       Server.receive_garbled_data parse_bytes int_of_bytes s = Ok ((∅, ∅), s2)).
Proof.
  intros Hint.
  assert (Hd : Server.receive_data int_of_bytes [] = Raise ValueError).
  { unfold Server.receive_data, Server.recv_int. simpl. by rewrite Hint. }
  split; [done|]. split; [|split; [|split]].
  - intros n keys. simpl. by rewrite Hd.
  - intros n tables. simpl. by rewrite Hd.
  - unfold Server.receive_garbled_data, Server.recv_int. simpl. by rewrite Hint.
  - intros s nt nk s1 s2 H1 H2 Hnt Hnk. unfold Server.receive_garbled_data.
    rewrite H1. cbn [mbind res_bind].
    replace (Z.to_nat nt) with 0%nat by lia. simpl. rewrite H2. cbn [mbind res_bind].
    replace (Z.to_nat nk) with 0%nat by lia. reflexivity.
Qed.
End server_facts.

Lemma receive_garbled_data_keyed_by_length_witness :
  Server.receive_garbled_data (λ data, data) Example.int_of_digit
    Example.garbled_socket
  = Ok ((∅, <[6 := ([Byte.x61; Byte.x62; Byte.x63],
                    [Byte.x64; Byte.x65; Byte.x66])]> ∅), [])
  ∧ (0 ≤ 6 ∧ Z.of_nat (3 + 3) ≤ 6 ∧ 3%nat = ((3 + 3) `div` 2)%nat).
Proof.
  assert (Hr : Server.receive_garbled_data (λ data, data) Example.int_of_digit
                 Example.garbled_socket
    = Ok ((∅, <[6 := ([Byte.x61; Byte.x62; Byte.x63],
                      [Byte.x64; Byte.x65; Byte.x66])]> ∅), [])) by reflexivity.
  split; [exact Hr|].
  exact (proj2 (receive_garbled_data_keyed_by_length _ _ _ _ _ _ Hr) 6
           [Byte.x61; Byte.x62; Byte.x63] [Byte.x64; Byte.x65; Byte.x66] eq_refl).
Defined.

Lemma handle_reaches_evaluate_without_bob_witness :
  Server.handle (λ data, data) Example.int_of_digit
    (λ _, Ok Example.server_circuit_alone) Example.handle_socket
  = Ok (Server.mkEvaluateCall Example.server_circuit_alone ∅
          (<["o" := 1]> ∅) None ∅)
  ∧ (None : option (gmap string (list Byte.byte * Z))) = None
  ∧ (∅ : gmap string Z) = ∅
  ∧ dom (<["o" := 1]> (∅ : gmap string Z)) = list_to_set ["o"].
Proof.
  assert (Hh : Server.handle (λ data, data) Example.int_of_digit
                 (λ _, Ok Example.server_circuit_alone) Example.handle_socket
               = Ok (Server.mkEvaluateCall Example.server_circuit_alone ∅
                       (<["o" := 1]> ∅) None ∅)) by reflexivity.
  split; [exact Hh|].
  destruct (handle_reaches_evaluate_without_bob _ _ _ _ _ Hh) as (Ha & Hb & _ & Hd).
  split; [exact Ha|]. split; [exact Hb | exact Hd].
Defined.

Lemma receiving_edge_cases_witness :
  Example.int_of_digit [] = None
  ∧ Server.receive_garbled_data (λ data, data) Example.int_of_digit []
    = Raise ValueError.
Proof.
  assert (Hint : Example.int_of_digit [] = None) by reflexivity.
  split; [exact Hint|].
  exact (proj1 (proj2 (proj2 (proj2
           (receiving_edge_cases (λ data, data) Example.int_of_digit Hint))))).
Defined.

(** * Further properties of Alice's tables *)

Section alice_tables.
Context `{Y : YaoLib}.
Variable py_int : string → option Z.

Lemma alice_loop_typed keys pbits ws acc stdin m rest out :
  Main.alice_loop py_int keys pbits ws acc stdin = (Ok (m, rest), out) →
  (length ws ≤ length (Main.typed_bits py_int stdin))%nat
  ∧ Main.typed_bits py_int rest
    = drop (length ws) (Main.typed_bits py_int stdin)
  ∧ ∀ i w, ws !! i = Some w → w ∉ drop (S i) ws →
      ∃ value b,
        Main.typed_bits py_int stdin !! i = Some value
        ∧ Main.alice_binding keys pbits w value = Ok b
        ∧ m !! w = Some b.
Proof.
  revert acc stdin out. induction ws as [|w0 ws IH]; intros acc stdin out Hl;
    simpl in Hl.
  - injection Hl as <- <- <-. split; [simpl; lia|]. split; [done|].
    intros i w Hi. by rewrite lookup_nil in Hi.
  - pose proof (read_bit_typed py_int w0 stdin) as Hty.
    destruct (Main.read_bit py_int w0 stdin) as [[[v stdin']|e] out0]; [|done].
    simpl in Hty.
    destruct (Main.alice_binding keys pbits w0 v) as [b|e] eqn:Hb; [|done].
    destruct (Main.alice_loop py_int keys pbits ws (<[w0:=b]> acc) stdin')
      as [r out1] eqn:Hrec. injection Hl as -> <-.
    destruct (IH _ _ _ Hrec) as (Hlen & Hrest & Hval). rewrite Hty. simpl.
    split; [lia|]. split; [done|].
    intros [|i] w Hi Hlast; simpl in *.
    + injection Hi as <-. exists v, b. split; [done|]. split; [done|].
      destruct (alice_loop_spec _ _ _ _ _ _ _ _ _ Hrec w0) as [_ Hout].
      by rewrite (Hout Hlast), lookup_insert_eq.
    + by apply Hval.
Qed.

(** X14.  [get_alice_inputs] serves Alice's wires in order: the wire at
    position [i] of the ["alice"] list (counting its last occurrence) is
    bound to the pair built from the [i]-th bit typed, and the lines left
    unread hold the bits after those. *)
Theorem get_alice_inputs_follows_typed_bits entry stdin a_inputs rest out :
  Main.get_alice_inputs py_int entry stdin = (Ok (a_inputs, rest), out) →
  let a_wires := get_alice (Main.e_circuit entry) in
  Main.typed_bits py_int rest
  = drop (length a_wires) (Main.typed_bits py_int stdin)
  ∧ ∀ i wire, a_wires !! i = Some wire → wire ∉ drop (S i) a_wires →
      ∃ value b,
        Main.typed_bits py_int stdin !! i = Some value
        ∧ Main.alice_binding (Main.e_keys entry) (Main.e_pbits entry) wire value
          = Ok b
        ∧ a_inputs !! wire = Some b.
Proof.
  intros Hget a_wires. unfold Main.get_alice_inputs in Hget.
  destruct (Main.alice_loop _ _ _ _ _ _) as [r out'] eqn:Hloop.
  injection Hget as -> <-.
  by destruct (alice_loop_typed _ _ _ _ _ _ _ _ Hloop) as (_ & ? & ?).
Qed.

(** X15.  The table [b_keys] of [Alice.print] is built from the wires that
    have a key pair: a wire of the ["bob"] list without a key pair is left
    out of the table without any exception, while one that has a key pair
    but no permutation bit makes the construction raise [KeyError]. *)
Theorem b_keys_of_outcomes pbits keys b_wires :
  match Main.b_keys_of pbits keys b_wires with
  | Ok b_keys =>
      dom b_keys = list_to_set b_wires ∩ dom keys
      ∧ ∀ w, w ∈ b_wires → is_Some (keys !! w) → is_Some (pbits !! w)
  | Raise e =>
      e = KeyError
      ∧ ∃ w, w ∈ b_wires ∧ is_Some (keys !! w) ∧ pbits !! w = None
  end.
Proof.
  destruct (Main.b_keys_of pbits keys b_wires) as [b_keys|e] eqn:Hbk.
  - assert (Hcov : ∀ w, w ∈ b_wires → is_Some (keys !! w) → is_Some (pbits !! w)).
    { intros w Hw [ks Hk]. unfold Main.b_keys_of in Hbk.
      case_decide as Hsub; [|done]. apply elem_of_dom, Hsub, elem_of_dom.
      exists ks. by apply map_lookup_filter_Some. }
    split; [|done]. apply set_eq. intros w.
    rewrite elem_of_intersection, elem_of_list_to_set, !elem_of_dom.
    rewrite (b_keys_of_lookup _ _ _ _ w Hbk). case_decide as Hw.
    + destruct (keys !! w) as [ks|] eqn:Hk; simpl.
      * destruct (Hcov w Hw) as [p ->]; [by eexists|]. simpl.
        split; [by intros _; split; [|eexists] | by eexists].
      * split; [by intros [? ?] | by intros [_ [? ?]]].
    + split; [by intros [? ?] | by intros [? _]].
  - unfold Main.b_keys_of in Hbk. case_decide as Hsub; [done|].
    injection Hbk as <-. split; [done|].
    assert (¬ set_Forall (λ w, w ∈ dom pbits)
                (dom (filter (λ kv, kv.1 ∈ b_wires) keys))) as Hnot.
    { intros Hall. apply Hsub. intros w Hw. by apply Hall. }
    apply not_set_Forall_Exists in Hnot; [|apply _].
    destruct Hnot as (w & [ks Hw]%elem_of_dom & Hp).
    apply map_lookup_filter_Some in Hw as [Hk Hin]. exists w.
    split; [done|]. split; [by eexists|]. by apply not_elem_of_dom.
Qed.
End alice_tables.

Lemma get_alice_inputs_follows_typed_bits_witness :
  Example.alice_run = (Ok (Example.a_inputs, []), Example.alice_run.2)
  ∧ Main.typed_bits Example.int_of_line Example.alice_stdin = [1; 0]
  ∧ Main.typed_bits Example.int_of_line []
    = drop (length (get_alice (Main.e_circuit Example.entry)))
        (Main.typed_bits Example.int_of_line Example.alice_stdin).
Proof.
  assert (Hrun : Example.alice_run
                 = (Ok (Example.a_inputs, []), Example.alice_run.2))
    by reflexivity.
  split; [exact Hrun|]. split; [reflexivity|].
  exact (proj1 (get_alice_inputs_follows_typed_bits _ _ _ _ _ _ Hrun)).
Defined.

(** * The pairs of Alice and the bits she typed *)

Section typed_pairs.
Context `{Y : YaoLib}.
Variable py_int : string → option Z.

Lemma typed_bits_are_bits stdin i value :
  Main.typed_bits py_int stdin !! i = Some value → is_bit value.
Proof.
  intros Hi. apply list_elem_of_lookup_2 in Hi.
  apply list_elem_of_omap in Hi as (line & _ & Hline).
  destruct (py_int line) as [v|]; [|done]. case_decide; [|done].
  by injection Hline as <-.
Qed.

(** The pair bound to a wire of Alice is built from the bit she typed for
    it: the key of the pair [keys[wire]] at that bit, with the bit XORed
    onto [pbits[wire]]. *)
Lemma get_alice_inputs_typed_pairs entry stdin a_inputs rest out :
  Main.get_alice_inputs py_int entry stdin = (Ok (a_inputs, rest), out) →
  ∀ i wire,
    get_alice (Main.e_circuit entry) !! i = Some wire →
    wire ∉ drop (S i) (get_alice (Main.e_circuit entry)) →
    ∃ value key0 key1 pbit,
      Main.typed_bits py_int stdin !! i = Some value
      ∧ is_bit value
      ∧ Main.e_keys entry !! wire = Some (key0, key1)
      ∧ Main.e_pbits entry !! wire = Some pbit
      ∧ a_inputs !! wire
        = Some (if decide (value = 0) then key0 else key1, Z.lxor pbit value).
Proof.
  intros Hget i wire Hi Hlast. unfold Main.get_alice_inputs in Hget.
  destruct (Main.alice_loop _ _ _ _ _ _) as [r out'] eqn:Hloop.
  injection Hget as -> <-.
  destruct (alice_loop_typed _ _ _ _ _ _ _ _ _ Hloop) as (_ & _ & Hval).
  destruct (Hval i wire Hi Hlast) as (value & b & Hty & Hb & Hm).
  pose proof (typed_bits_are_bits _ _ _ Hty) as Hv.
  destruct (alice_binding_inv _ _ _ _ _ Hb Hv) as (k0 & k1 & p & Hk & Hp & ->).
  by exists value, k0, k1, p.
Qed.

(** C5.  The external bit that travels with a wire is the semantic value
    XOR the wire's permutation bit.  For the wire at position [i] of
    Alice's list, [get_alice_inputs] binds the pair (key for [v], pbit XOR
    [v]) where [v] is the [i]-th bit that Alice typed.  The table that
    [Alice.print] builds with [_get_encr_bits] binds a wire of Bob with
    keys (k0, k1) to ((k0, 0 XOR pbit), (k1, 1 XOR pbit)), and the entry of
    such a pair for a value [v] carries [v] XOR pbit. *)
Theorem external_bit_is_value_xor_pbit entry stdin a_inputs rest out b_keys :
  Main.get_alice_inputs py_int entry stdin = (Ok (a_inputs, rest), out) →
  Main.b_keys_of (Main.e_pbits entry) (Main.e_keys entry)
    (get_bob (Main.e_circuit entry)) = Ok b_keys →
  (∀ i wire,
     get_alice (Main.e_circuit entry) !! i = Some wire →
     wire ∉ drop (S i) (get_alice (Main.e_circuit entry)) →
     ∃ value key0 key1 pbit,
       Main.typed_bits py_int stdin !! i = Some value
       ∧ is_bit value
       ∧ Main.e_keys entry !! wire = Some (key0, key1)
       ∧ Main.e_pbits entry !! wire = Some pbit
       ∧ a_inputs !! wire
         = Some (if decide (value = 0) then key0 else key1, Z.lxor pbit value))
  ∧ (∀ wire key0 key1 pbit,
       wire ∈ get_bob (Main.e_circuit entry) →
       Main.e_keys entry !! wire = Some (key0, key1) →
       Main.e_pbits entry !! wire = Some pbit →
       b_keys !! wire = Some ((key0, Z.lxor 0 pbit), (key1, Z.lxor 1 pbit)))
  ∧ (∀ pbit key0 key1 value, is_bit value →
       tuple2_index (Main._get_encr_bits pbit key0 key1) value
       = Ok (if decide (value = 0) then key0 else key1, Z.lxor value pbit)).
Proof.
  intros Hget Hbk. split; [|split].
  - by eapply get_alice_inputs_typed_pairs.
  - intros wire key0 key1 pbit Hw Hk Hp.
    rewrite (b_keys_of_lookup _ _ _ _ wire Hbk). rewrite decide_True by done.
    by rewrite Hk, Hp.
  - intros pbit key0 key1 value Hv.
    rewrite (tuple2_index_bit _ _ Hv). unfold Yao.select, Main._get_encr_bits.
    by destruct Hv as [-> | ->].
Qed.

Lemma bob_values_bind_bits b_wires stdin b_inputs rest out :
  Main.get_bob_inputs py_int b_wires stdin = (Ok (b_inputs, rest), out) →
  Main.binds_bits b_wires (Main.bob_values b_inputs).
Proof.
  intros Hb. destruct (get_bob_inputs_spec _ _ _ _ _ _ Hb) as [Hdom Hbind].
  unfold Main.binds_bits, Main.bob_values. split; [by rewrite dom_fmap_L|].
  intros w Hw. destruct (Hbind w Hw) as (v & Hv & Hl). exists v.
  split; [done|]. by rewrite lookup_fmap, Hl.
Qed.

(** C9, as amended.  The dictionaries that the two input readers return
    are total over exactly the party's own wires.  [get_bob_inputs] binds
    each of Bob's wires to a bit, 0 or 1: the bit typed for it.
    [get_alice_inputs] binds each of Alice's wires not to a bit but to the
    tuple (key for [v], pbit XOR [v]), where [v], 0 or 1, is the bit typed
    for that wire.  A typed line that is not 0 or 1 is refused with a
    message and the wire is prompted for again; the first line that is 0
    or 1 is the one taken. *)
Theorem input_maps_cover_own_wires entry b_wires stdin_a stdin_b
    a_inputs rest_a out_a b_inputs rest_b out_b :
  Main.get_alice_inputs py_int entry stdin_a = (Ok (a_inputs, rest_a), out_a) →
  Main.get_bob_inputs py_int b_wires stdin_b = (Ok (b_inputs, rest_b), out_b) →
  (dom (Main.alice_values a_inputs)
   = list_to_set (get_alice (Main.e_circuit entry))
   ∧ ∀ i wire,
       get_alice (Main.e_circuit entry) !! i = Some wire →
       wire ∉ drop (S i) (get_alice (Main.e_circuit entry)) →
       ∃ value key0 key1 pbit,
         Main.typed_bits py_int stdin_a !! i = Some value
         ∧ is_bit value
         ∧ Main.e_keys entry !! wire = Some (key0, key1)
         ∧ Main.e_pbits entry !! wire = Some pbit
         ∧ Main.alice_values a_inputs !! wire
           = Some (Main.TupleValue (if decide (value = 0) then key0 else key1)
                     (Z.lxor pbit value)))
  ∧ (Main.binds_bits b_wires (Main.bob_values b_inputs)
     ∧ ∀ i wire, b_wires !! i = Some wire → wire ∉ drop (S i) b_wires →
         b_inputs !! wire = Main.typed_bits py_int stdin_b !! i)
  ∧ (∀ wire lines value rest out,
       Main.read_bit py_int wire lines = (Ok (value, rest), out) →
       (value = 0 ∨ value = 1)
       ∧ ∃ refused line,
           lines = refused ++ line :: rest
           ∧ py_int line = Some value
           ∧ Forall (λ l, py_int l ≠ Some 0 ∧ py_int l ≠ Some 1) refused
           ∧ out = (refused ≫= λ l,
                      [Main.Prompt wire;
                       Main.Print (match py_int l with
                                   | Some _ => "Input must be either 0 or 1."
                                   | None => "Invalid input. Please enter 0 or 1."
                                   end)])
                   ++ [Main.Prompt wire])
  ∧ (∀ wire refused line value rest,
       Forall (λ l, py_int l ≠ Some 0 ∧ py_int l ≠ Some 1) refused →
       py_int line = Some value → value = 0 ∨ value = 1 →
       (Main.read_bit py_int wire (refused ++ line :: rest)).1
       = Ok (value, rest)).
Proof.
  intros Ha Hb. split; [|split; [|split]].
  - split.
    + unfold Main.alice_values. rewrite dom_fmap_L.
      by destruct (get_alice_inputs_spec _ _ _ _ _ _ Ha).
    + intros i wire Hi Hlast.
      destruct (get_alice_inputs_typed_pairs _ _ _ _ _ Ha i wire Hi Hlast)
        as (value & k0 & k1 & p & Hty & Hv & Hk & Hp & Hm).
      exists value, k0, k1, p. repeat (split; [done|]).
      unfold Main.alice_values. by rewrite lookup_fmap, Hm.
  - split; [by eapply bob_values_bind_bits|].
    pose proof (bob_inputs_are_the_typed_bits py_int b_wires stdin_b) as Hty.
    rewrite Hb in Hty. by destruct Hty as (_ & _ & ?).
  - intros wire lines value rest out Hr. by apply read_bit_spec.
  - intros wire refused line value rest Hall Hline Hv.
    destruct (read_bit_complete _ wire refused line value rest Hall Hline Hv)
      as [out ->]. done.
Qed.
End typed_pairs.

Lemma external_bit_is_value_xor_pbit_witness :
  Example.alice_typed_run
  = (Ok (Example.a_inputs_typed, []), Example.alice_typed_run.2)
  ∧ Main.b_keys_of (Main.e_pbits Example.entry) (Main.e_keys Example.entry)
      (get_bob (Main.e_circuit Example.entry)) = Ok Example.b_keys
  ∧ Main.typed_bits Example.int_of_line Example.alice_typing = [0; 1]
  ∧ Main.e_pbits Example.entry !! 1 = Some 1
  ∧ Main.e_pbits Example.entry !! 2 = Some 0
  ∧ Example.a_inputs_typed !! 1 = Some (10, 1)
  ∧ Example.a_inputs_typed !! 2 = Some (21, 1)
  ∧ Example.b_keys !! 3 = Some ((30, Z.lxor 0 1), (31, Z.lxor 1 1)).
Proof.
  assert (Hrun : Example.alice_typed_run
                 = (Ok (Example.a_inputs_typed, []), Example.alice_typed_run.2))
    by reflexivity.
  assert (Hbk : Main.b_keys_of (Main.e_pbits Example.entry)
                  (Main.e_keys Example.entry)
                  (get_bob (Main.e_circuit Example.entry)) = Ok Example.b_keys)
    by reflexivity.
  split; [exact Hrun|]. split; [exact Hbk|]. do 5 (split; [reflexivity|]).
  destruct (external_bit_is_value_xor_pbit _ _ _ _ _ _ _ Hrun Hbk)
    as (_ & Htable & _).
  apply (Htable 3 30 31 1); [by left | reflexivity | reflexivity].
Defined.

(** C9 as it was worded fails for Alice.  She types 0 for wire 1, whose
    permutation bit is 1, and [get_alice_inputs] binds wire 1 to the tuple
    (10, 1): the dictionary it returns is not one that binds her wires to
    bits. *)
Lemma get_alice_inputs_binds_tuples_not_bits :
  Example.alice_typed_run
  = (Ok (Example.a_inputs_typed, []), Example.alice_typed_run.2)
  ∧ Main.alice_values Example.a_inputs_typed !! 1 = Some (Main.TupleValue 10 1)
  ∧ ¬ Main.binds_bits (get_alice (Main.e_circuit Example.entry))
        (Main.alice_values Example.a_inputs_typed).
Proof.
  assert (Hv : Main.alice_values Example.a_inputs_typed !! 1
               = Some (Main.TupleValue 10 1)) by reflexivity.
  split; [reflexivity|]. split; [exact Hv|].
  intros [_ Hbits]. destruct (Hbits 1) as (v & _ & Hint); [by left|].
  rewrite Hv in Hint. discriminate Hint.
Qed.

Lemma input_maps_cover_own_wires_witness :
  Example.alice_typed_run
  = (Ok (Example.a_inputs_typed, []), Example.alice_typed_run.2)
  ∧ Example.bob_run
    = (Ok (<[4 := 1]> (<[3 := 1]> ∅), []), Example.bob_run.2)
  ∧ dom (Main.alice_values Example.a_inputs_typed)
    = list_to_set (get_alice (Main.e_circuit Example.entry))
  ∧ Main.binds_bits [3; 4] (Main.bob_values (<[4 := 1]> (<[3 := 1]> ∅))).
Proof.
  assert (Ha : Example.alice_typed_run
               = (Ok (Example.a_inputs_typed, []), Example.alice_typed_run.2))
    by reflexivity.
  assert (Hb : Example.bob_run
               = (Ok (<[4 := 1]> (<[3 := 1]> ∅), []), Example.bob_run.2))
    by reflexivity.
  split; [exact Ha|]. split; [exact Hb|].
  pose proof (input_maps_cover_own_wires _ _ _ _ _ _ _ _ _ _ _ Ha Hb)
    as [[Hda _] [[Hbb _] _]].
  split; [exact Hda | exact Hbb].
Defined.

(** * What goes through the oblivious transfer *)

Section routing.
Context `{Y : YaoLib}.
Variable py_int : string → option Z.

Lemma Alice_print_trace alice result r out :
  Main.Alice_print alice result = (r, out) →
  ∀ b_keys,
    Main.b_keys_of (Main.e_pbits (Main.a_entry alice))
      (Main.e_keys (Main.a_entry alice))
      (get_bob (Main.e_circuit (Main.a_entry alice))) = Ok b_keys →
    ∃ tail,
      out = [Main.Print ("======== "
                         +:+ c_id (Main.e_circuit (Main.a_entry alice))
                         +:+ " ========");
             Main.OTGetResult (Main.a_alice_inputs alice) b_keys] ++ tail
      ∧ ((∃ report, r = Ok report
                    ∧ tail = [Main.Print (Main.report_line report);
                              Main.Print ""])
         ∨ (∃ e, r = Raise e ∧ tail = [])).
Proof.
  unfold Main.Alice_print. intros Hp b_keys Hbk. rewrite Hbk in Hp.
  destruct (_ ≫= _) as [report|e]; injection Hp as <- <-.
  - eexists. split; [reflexivity|]. left. by exists report.
  - exists []. split; [done|]. right. by exists e.
Qed.

Lemma deliveries_oblivious {A} (a_inputs : gmap Z A) (b_keys : gmap Z (A * A))
    w pair :
  OT.Oblivious w pair ∈ OT.deliveries a_inputs b_keys ↔ b_keys !! w = Some pair.
Proof.
  unfold OT.deliveries. rewrite elem_of_cons, list_elem_of_fmap. split.
  - intros [?|([w' pair'] & [= -> ->] & Hin)]; [done|].
    by apply elem_of_map_to_list in Hin.
  - intros Hw. right. exists (w, pair). split; [done|].
    by apply elem_of_map_to_list.
Qed.

(** C3.  In a run started with oblivious transfer enabled, Alice calls
    [ot.get_result] with two separate things.  The table [b_keys] binds
    exactly the wires of the circuit's ["bob"] list, each to the two (key,
    external bit) entries of that wire.  Her own inputs [a_inputs] bind
    exactly the wires of the ["alice"] list, each to the single pair (key,
    external bit) of the bit she typed for it.  Of what then leaves her,
    the instances of the transfer are those of the wires of Bob, one each,
    and none is for a wire of Alice: her pairs go in the direct hand-over.
    The trace of [start] is given in full: the circuit and tables sent,
    the header, the exchange, and then either the report line and an empty
    line, or nothing when the report raises.
    The garbling is assumed to have given every wire of Bob a key pair and
    a permutation bit, and the two lists to be disjoint. *)
Theorem only_bob_wires_go_through_ot circuit stdin alice rest out0
    result r out :
  Main.Alice_init py_int circuit true stdin = (Ok (alice, rest), out0) →
  Main.Alice_start alice result = (r, out) →
  (∀ w, w ∈ get_bob circuit →
        is_Some (Main.e_keys (Main.a_entry alice) !! w)
        ∧ is_Some (Main.e_pbits (Main.a_entry alice) !! w)) →
  (∀ w, w ∈ get_alice circuit → w ∉ get_bob circuit) →
  ∃ b_keys tail,
    out = [Main.SendWait (Main.to_send (Main.a_entry alice));
           Main.Print ("======== " +:+ c_id circuit +:+ " ========");
           Main.OTGetResult (Main.a_alice_inputs alice) b_keys] ++ tail
    ∧ ((∃ report, r = Ok report
                  ∧ tail = [Main.Print (Main.report_line report);
                            Main.Print ""])
       ∨ (∃ e, r = Raise e ∧ tail = []))
    ∧ dom b_keys = list_to_set (get_bob circuit)
    ∧ (∀ w, w ∈ get_bob circuit →
         ∃ key0 key1 pbit,
           Main.e_keys (Main.a_entry alice) !! w = Some (key0, key1)
           ∧ Main.e_pbits (Main.a_entry alice) !! w = Some pbit
           ∧ b_keys !! w = Some (Main._get_encr_bits pbit key0 key1))
    ∧ dom (Main.a_alice_inputs alice) = list_to_set (get_alice circuit)
    ∧ (∀ i w, get_alice circuit !! i = Some w →
         w ∉ drop (S i) (get_alice circuit) →
         ∃ value key0 key1 pbit,
           Main.typed_bits py_int stdin !! i = Some value
           ∧ is_bit value
           ∧ Main.e_keys (Main.a_entry alice) !! w = Some (key0, key1)
           ∧ Main.e_pbits (Main.a_entry alice) !! w = Some pbit
           ∧ Main.a_alice_inputs alice !! w
             = Some (if decide (value = 0) then key0 else key1,
                     Z.lxor pbit value))
    ∧ (∀ w, w ∈ get_alice circuit → b_keys !! w = None)
    ∧ (∀ d, d ∈ OT.deliveries (Main.a_alice_inputs alice) b_keys →
         d = OT.Direct (Main.a_alice_inputs alice)
         ∨ (∃ w pair, d = OT.Oblivious w pair
              ∧ w ∈ get_bob circuit ∧ (w ∉ get_alice circuit)
              ∧ b_keys !! w = Some pair))
    ∧ (∀ w, w ∈ get_bob circuit →
         ∃ pair, OT.Oblivious w pair
                 ∈ OT.deliveries (Main.a_alice_inputs alice) b_keys)
    ∧ OT.Direct (Main.a_alice_inputs alice)
      ∈ OT.deliveries (Main.a_alice_inputs alice) b_keys.
Proof.
  intros Hinit Hstart Hlib Hpart. unfold Main.Alice_init in Hinit.
  destruct (Main.YaoGarbler_init circuit) as [entry|] eqn:Hentry; [|done].
  destruct (Main.get_alice_inputs py_int entry stdin)
    as [[[a_inputs stdin']|] out1] eqn:Hget; [|done].
  injection Hinit as <- <- <-. cbn [Main.a_entry Main.a_alice_inputs] in *.
  destruct (YaoGarbler_init_inv _ _ Hentry) as (g & _ & Hc & _).
  destruct (b_keys_of_total (Main.e_pbits entry) (Main.e_keys entry)
              (get_bob circuit)) as [b_keys Hbk]; [intros w Hw; by apply Hlib|].
  unfold Main.Alice_start in Hstart.
  destruct (Main.Alice_print _ result) as [r' out'] eqn:Hprint.
  injection Hstart as -> <-.
  destruct (Alice_print_trace _ _ _ _ Hprint b_keys) as (tail & -> & Htail).
  { cbn [Main.a_entry]. by rewrite Hc. }
  cbn [Main.a_entry Main.a_alice_inputs]. rewrite Hc.
  assert (Hlk : ∀ w, w ∈ get_bob circuit →
            ∃ key0 key1 pbit,
              Main.e_keys entry !! w = Some (key0, key1)
              ∧ Main.e_pbits entry !! w = Some pbit
              ∧ b_keys !! w = Some (Main._get_encr_bits pbit key0 key1)).
  { intros w Hw. destruct (Hlib w Hw) as [[[k0 k1] Hk] [p Hp]].
    exists k0, k1, p. rewrite (b_keys_of_lookup _ _ _ _ w Hbk).
    rewrite decide_True by done. by rewrite Hk, Hp. }
  assert (Hdomb : ∀ w, is_Some (b_keys !! w) ↔ w ∈ get_bob circuit).
  { intros w. rewrite (b_keys_of_lookup _ _ _ _ w Hbk). case_decide as Hw.
    - destruct (Hlk w Hw) as (k0 & k1 & p & -> & -> & _). split; [done | by eexists].
    - split; [by intros [? ?] | done]. }
  destruct (get_alice_inputs_spec _ _ _ _ _ _ Hget) as [Hdom _].
  pose proof (get_alice_inputs_typed_pairs _ _ _ _ _ _ Hget) as Htyped.
  rewrite Hc in Hdom, Htyped.
  exists b_keys, tail. split; [done|]. split; [done|].
  split; [|split; [done|split; [done|split; [done|split; [|split; [|split]]]]]].
  - apply set_eq. intros w. by rewrite elem_of_dom, elem_of_list_to_set.
  - intros w Hw. destruct (b_keys !! w) eqn:Hbw; [|done].
    exfalso. apply (Hpart w Hw), Hdomb. by eexists.
  - intros d [->|Hd]%elem_of_cons; [by left|]. right.
    apply list_elem_of_fmap in Hd as ([w pair] & -> & Hin%elem_of_map_to_list).
    exists w, pair. cbn [fst snd].
    assert (w ∈ get_bob circuit) as Hw by (apply Hdomb; by eexists).
    split; [done|]. split; [done|]. split; [|done].
    intros Ha. by apply (Hpart w Ha).
  - intros w Hw. destruct (proj2 (Hdomb w) Hw) as [pair Hpair].
    exists pair. by apply deliveries_oblivious.
  - by left.
Qed.

(** X8.  What [Alice.print] prints and when it fails.  When the table of
    Bob's keys cannot be built it raises [KeyError] before anything is
    printed or exchanged.  Otherwise the header is printed and the exchange
    takes place; then, when Alice's inputs lack one of her wires or the
    returned result lacks an output wire, it raises [KeyError], and
    otherwise it prints the report line and an empty line.  The report
    line lists, for Alice's wires, the external bits that were sent (not
    the bits she typed) and, for the output wires, the values of the
    result. *)
Theorem Alice_print_reports_external_bits alice result :
  let entry := Main.a_entry alice in
  let circuit := Main.e_circuit entry in
  let header := Main.Print ("======== " +:+ c_id circuit +:+ " ========") in
  let built := Main.b_keys_of (Main.e_pbits entry) (Main.e_keys entry)
                 (get_bob circuit) in
  match Main.Alice_print alice result with
  | (Ok report, out) =>
      ∃ bits_a results b_keys,
        report = Main.mkReport (get_alice circuit) bits_a (c_out circuit) results
        ∧ Forall2 (λ w e, ∃ key, Main.a_alice_inputs alice !! w = Some (key, e))
            (get_alice circuit) bits_a
        ∧ Forall2 (λ w v, result !! w = Some v) (c_out circuit) results
        ∧ built = Ok b_keys
        ∧ out = [header; Main.OTGetResult (Main.a_alice_inputs alice) b_keys;
                 Main.Print (Main.report_line report); Main.Print ""]
  | (Raise e, out) =>
      e = KeyError
      ∧ ((built = Raise KeyError ∧ out = [])
         ∨ ∃ b_keys,
             built = Ok b_keys
             ∧ out = [header; Main.OTGetResult (Main.a_alice_inputs alice) b_keys]
             ∧ ((∃ w, w ∈ get_alice circuit
                      ∧ Main.a_alice_inputs alice !! w = None)
                ∨ (∃ w, w ∈ c_out circuit ∧ result !! w = None)))
  end.
Proof.
  intros entry circuit header built. unfold Main.Alice_print.
  fold entry. fold circuit. fold built. fold header.
  destruct built as [b_keys|e] eqn:Hbk.
  - pose proof (list_comp_spec (λ w, snd <$> getitem (Main.a_alice_inputs alice) w)
                  (get_alice circuit)) as Ha.
    destruct (Main.list_comp _ (get_alice circuit)) as [bits|e]; cbn [mbind res_bind].
    + pose proof (list_comp_spec (getitem result) (c_out circuit)) as Hr.
      destruct (Main.list_comp _ (c_out circuit)) as [results|e]; cbn [mbind res_bind].
      * exists bits, results, b_keys. split; [done|]. split; [|split; [|done]].
        -- eapply Forall2_impl; [exact Ha|]. intros w e. cbn beta.
           unfold getitem. destruct (Main.a_alice_inputs alice !! w) as [[k e']|];
             [|done]. intros [= <-]. by exists k.
        -- eapply Forall2_impl; [exact Hr|]. intros w v Hv. by apply getitem_Ok.
      * destruct Hr as (w & Hw & Hf). unfold getitem in Hf.
        destruct (result !! w) eqn:Hrw; [done|]. injection Hf as <-.
        split; [done|]. right. exists b_keys. split; [done|]. split; [done|].
        right. by exists w.
    + destruct Ha as (w & Hw & Hf). unfold getitem in Hf.
      destruct (Main.a_alice_inputs alice !! w) eqn:Haw; [done|]. injection Hf as <-.
      split; [done|]. right. exists b_keys. split; [done|]. split; [done|].
      left. by exists w.
  - assert (e = KeyError) as ->.
    { subst built. unfold Main.b_keys_of in Hbk. case_decide; [done|].
      by injection Hbk as <-. }
    split; [done|]. by left.
Qed.

(** X9.  The two menus of [main] (lines 186-196 and 204-214) and the
    indexing that follows each, the circuit files being taken as listed
    and parsed.  When the first loop ends it does so on a
    number between 1 and the number of circuit files, so
    [circuit_files[file_choice - 1]] is an element of the list and raises
    no [IndexError]; the same holds of the second loop and
    [circuits["circuits"][circuit_choice - 1]].  Alice is then created on
    the circuit at the second choice within the file at the first, with
    the lines left after both menus.  When the lines run out in the second
    menu, [input] raises [EOFError]. *)
Theorem menu_choices_select_the_circuit circuit_files stdin
    oblivious_transfer file_choice rest :
  Main.read_choice py_int (length circuit_files) stdin
  = Ok (file_choice, rest) →
  (1 ≤ file_choice ≤ length circuit_files)%nat
  ∧ ∃ file circuits,
      circuit_files !! (file_choice - 1)%nat = Some (file, circuits)
      ∧ match Main.read_choice py_int (length circuits) rest with
        | Ok (circuit_choice, rest') =>
            (1 ≤ circuit_choice ≤ length circuits)%nat
            ∧ ∃ circuit,
                circuits !! (circuit_choice - 1)%nat = Some circuit
                ∧ Main.main py_int circuit_files stdin "alice"
                    oblivious_transfer
                  = Ok (Main.RunAlice circuit oblivious_transfer rest')
        | Raise e =>
            e = EOFError
            ∧ Main.main py_int circuit_files stdin "alice" oblivious_transfer
              = Raise EOFError
        end.
Proof.
  intros Hfile.
  pose proof (read_choice_spec py_int (length circuit_files) stdin) as H1.
  rewrite Hfile in H1. split; [done|].
  destruct (circuit_files !! (file_choice - 1)%nat) as [[file circuits]|]
    eqn:Hlk; [|apply lookup_ge_None in Hlk; lia].
  exists file, circuits. split; [done|].
  assert (Hmain : Main.main py_int circuit_files stdin "alice"
                    oblivious_transfer
                  = '(circuit_choice, stdin2) ←
                      Main.read_choice py_int (length circuits) rest;
                    match circuits !! (circuit_choice - 1)%nat with
                    | None => Raise IndexError
                    | Some circuit =>
                        Ok (Main.RunAlice circuit oblivious_transfer stdin2)
                    end).
  { unfold Main.main. rewrite decide_True by done.
    destruct circuit_files as [|f fs]; [cbn in H1; lia|]. cbv iota.
    rewrite Hfile. cbn [mbind res_bind]. by rewrite Hlk. }
  rewrite Hmain.
  pose proof (read_choice_spec py_int (length circuits) rest) as H2.
  destruct (Main.read_choice py_int (length circuits) rest)
    as [[circuit_choice rest']|e]; cbn [mbind res_bind]; [|by subst e].
  split; [done|].
  destruct (circuits !! (circuit_choice - 1)%nat) as [circuit|] eqn:Hc;
    [|apply lookup_ge_None in Hc; lia].
  by exists circuit.
Qed.
End routing.

Lemma only_bob_wires_go_through_ot_witness :
  Main.Alice_init Example.int_of_line Example.circuit true Example.alice_typing
  = (Ok (Example.alice_typed, []),
     (Main.Alice_init Example.int_of_line Example.circuit true
        Example.alice_typing).2)
  ∧ (∀ w, w ∈ get_alice Example.circuit → w ∉ get_bob Example.circuit)
  ∧ ∃ b_keys tail,
      (Main.Alice_start Example.alice_typed Example.result).2
      = [Main.SendWait (Main.to_send Example.entry);
         Main.Print "======== demo ========";
         Main.OTGetResult Example.a_inputs_typed b_keys] ++ tail
      ∧ dom b_keys = list_to_set [3; 4]
      ∧ b_keys !! 1 = None ∧ b_keys !! 2 = None
      ∧ Example.a_inputs_typed !! 1 = Some (10, 1)
      ∧ Example.a_inputs_typed !! 2 = Some (21, 1).
Proof.
  assert (Hinit : Main.Alice_init Example.int_of_line Example.circuit true
                    Example.alice_typing
                  = (Ok (Example.alice_typed, []),
                     (Main.Alice_init Example.int_of_line Example.circuit true
                        Example.alice_typing).2)) by reflexivity.
  assert (Hpart : ∀ w, w ∈ get_alice Example.circuit →
                       w ∉ get_bob Example.circuit).
  { intros w Hw Hb. cbn in Hw, Hb.
    apply elem_of_cons in Hb as [->|Hb].
    - apply elem_of_cons in Hw as [Hw|Hw]; [discriminate Hw|].
      apply elem_of_cons in Hw as [Hw|Hw]; [discriminate Hw|].
      by apply elem_of_nil in Hw.
    - apply elem_of_cons in Hb as [->|Hb]; [|by apply elem_of_nil in Hb].
      apply elem_of_cons in Hw as [Hw|Hw]; [discriminate Hw|].
      apply elem_of_cons in Hw as [Hw|Hw]; [discriminate Hw|].
      by apply elem_of_nil in Hw. }
  split; [exact Hinit|]. split; [exact Hpart|].
  destruct (only_bob_wires_go_through_ot Example.int_of_line Example.circuit
              Example.alice_typing Example.alice_typed [] _ Example.result
              (Main.Alice_start Example.alice_typed Example.result).1
              (Main.Alice_start Example.alice_typed Example.result).2
              Hinit)
    as (b_keys & tail & Hout & _ & Hdom & _ & _ & _ & Hnone & _).
  - by destruct (Main.Alice_start Example.alice_typed Example.result).
  - intros w Hw. cbn in Hw.
    apply elem_of_cons in Hw as [->|Hw]; [split; by eexists|].
    apply elem_of_cons in Hw as [->|Hw]; [split; by eexists|].
    by apply elem_of_nil in Hw.
  - exact Hpart.
  - exists b_keys, tail. split; [exact Hout|]. split; [exact Hdom|].
    split; [apply Hnone; by left|]. split; [apply Hnone; by right; left|].
    split; reflexivity.
Defined.

(** * The parsed command line *)

Section parsed_command_line.
Context `{Y : YaoLib}.
Variable py_int : string → option Z.


End parsed_command_line.

Lemma menu_choices_select_the_circuit_witness :
  Main.read_choice Example.int_of_line 2 ["0"; "x"; "3"; "2"; "5"; "1"]
  = Ok (2%nat, ["5"; "1"])
  ∧ Main.main Example.int_of_line
      [("a.json", [Example.dangling]);
       ("b.json", [Example.circuit; Example.cyclic])]
      ["0"; "x"; "3"; "2"; "5"; "1"] "alice" true
    = Ok (Main.RunAlice Example.circuit true []).
Proof.
  assert (Hfile : Main.read_choice Example.int_of_line 2
                    ["0"; "x"; "3"; "2"; "5"; "1"]
                  = Ok (2%nat, ["5"; "1"])) by reflexivity.
  split; [exact Hfile|].
  destruct (menu_choices_select_the_circuit Example.int_of_line
              [("a.json", [Example.dangling]);
               ("b.json", [Example.circuit; Example.cyclic])]
              _ true _ _ Hfile)
    as (_ & file & circuits & Hlk & Hrest).
  injection Hlk as <- <-. cbn in Hrest.
  destruct Hrest as (_ & circuit & Hc & Hmain).
  injection Hc as <-. exact Hmain.
Defined.

(** * The order of what Alice does *)

Section session_order.
Context `{Y : YaoLib}.
Variable py_int : string → option Z.

Lemma get_alice_inputs_console entry stdin :
  Forall Main.console (Main.get_alice_inputs py_int entry stdin).2.
Proof.
  unfold Main.get_alice_inputs.
  pose proof (alice_loop_console py_int (Main.e_keys entry) (Main.e_pbits entry)
                (get_alice (Main.e_circuit entry)) ∅ stdin) as Hq.
  destruct (Main.alice_loop _ _ _ _ _ _) as [r out]. by apply Forall_cons_2.
Qed.

(** X4.  The order of the events of [Alice(circuit, ...)] followed by
    [alice.start()].  When the garbling raises, nothing else has happened:
    no socket, no output.  Otherwise the socket and the transfer object
    are created first (lines 38-39), with the [oblivious_transfer]
    argument as given, and the inputs are asked for after that, on the
    console only.  When reading them raises, the run ends there and
    nothing was sent.  When it succeeds, the next event is the sending of
    the dictionary. *)
Theorem alice_session_order circuit oblivious_transfer stdin result :
  let created := [Main.NewGarblerSocket;
                  Main.NewObliviousTransfer oblivious_transfer] in
  let session :=
    Main.alice_session py_int circuit oblivious_transfer stdin result in
  match Main.YaoGarbler_init circuit with
  | Raise e => session = (Raise e, [])
  | Ok entry =>
      let asked := (Main.get_alice_inputs py_int entry stdin).2 in
      Forall Main.console asked
      ∧ match (Main.get_alice_inputs py_int entry stdin).1 with
        | Raise e => session = (Raise e, created ++ asked)
        | Ok (a_inputs, _) =>
            ∃ after,
              session.2
              = created ++ asked ++ Main.SendWait (Main.to_send entry) :: after
        end
  end.
Proof.
  intros created session. subst session.
  unfold Main.alice_session, Main.Alice_init.
  destruct (Main.YaoGarbler_init circuit) as [entry|e]; [|done].
  cbv zeta. split; [apply get_alice_inputs_console|].
  destruct (Main.get_alice_inputs py_int entry stdin)
    as [[[a_inputs rest]|e] asked]; cbn [fst snd]; [|done].
  unfold Main.Alice_start. cbn [Main.a_entry].
  destruct (Main.Alice_print _ result) as [r after]. exists after.
  cbn [snd]. by rewrite <- app_assoc.
Qed.
End session_order.

Lemma Alice_print_reports_external_bits_witness :
  Main.Alice_print Example.alice_typed Example.result
  = (Ok (Main.mkReport [1; 2] [1; 1] [8; 7] [1; 0]),
     [Main.Print "======== demo ========";
      Main.OTGetResult Example.a_inputs_typed Example.b_keys;
      Main.Print "  Alice[1, 2] = 1 1  Outputs[8, 7] = 1 0";
      Main.Print ""]).
Proof.
  pose proof (Alice_print_reports_external_bits Example.alice_typed
                Example.result) as Hprint.
  cbv zeta in Hprint.
  destruct (Main.Alice_print Example.alice_typed Example.result)
    as [[report|e] out] eqn:Hrun.
  - destruct Hprint as (bits_a & results & b_keys & -> & Ha & Hr & Hbk & ->).
    assert (b_keys = Example.b_keys) as ->.
    { assert (Hex : Main.b_keys_of (Main.e_pbits (Main.a_entry Example.alice_typed))
                      (Main.e_keys (Main.a_entry Example.alice_typed))
                      (get_bob (Main.e_circuit (Main.a_entry Example.alice_typed)))
                    = Ok Example.b_keys) by reflexivity.
      rewrite Hex in Hbk. by injection Hbk as <-. }
    assert (bits_a = [1; 1]) as ->.
    { apply Forall2_cons_inv_l in Ha as (e1 & l1 & [k1 Hk1] & Ha & ->).
      apply Forall2_cons_inv_l in Ha as (e2 & l2 & [k2 Hk2] & Ha & ->).
      apply Forall2_nil_inv_l in Ha as ->.
      assert (H1 : Some (k1, e1) = Some (10, 1))
        by (etrans; [symmetry; exact Hk1 | reflexivity]).
      assert (H2 : Some (k2, e2) = Some (21, 1))
        by (etrans; [symmetry; exact Hk2 | reflexivity]).
      injection H1 as _ ->. by injection H2 as _ ->. }
    assert (results = [1; 0]) as ->.
    { apply Forall2_cons_inv_l in Hr as (v1 & l1 & Hv1 & Hr & ->).
      apply Forall2_cons_inv_l in Hr as (v2 & l2 & Hv2 & Hr & ->).
      apply Forall2_nil_inv_l in Hr as ->.
      assert (H1 : Some v1 = Some 1)
        by (etrans; [symmetry; exact Hv1 | reflexivity]).
      assert (H2 : Some v2 = Some 0)
        by (etrans; [symmetry; exact Hv2 | reflexivity]).
      injection H1 as ->. by injection H2 as ->. }
    reflexivity.
  - exfalso. assert (Hok : ∃ report out',
      Main.Alice_print Example.alice_typed Example.result = (Ok report, out'))
      by (do 2 eexists; reflexivity).
    destruct Hok as (report & out' & Hok). rewrite Hok in Hrun. discriminate Hrun.
Defined.
